(** * f8a-pypi-insights: the training pipeline of [src/training/train.py]

    A shallow embedding of the functions of [train.py] and the properties
    of its identifier mapper, interaction-table builder, splitter,
    evaluator and artifact publisher.

    Conventions of the embedding:
    - a Python [int] is a [Z]; [len] is [Z.of_nat (length _)];
    - a raised exception is the left injection of [result];
    - a Python [dict] is an association list in insertion order
      ([dict_set] updates in place or appends, as [d[k] = v] does);
    - a Python [set] of ints is a [gset Z], [list(s)] is [elements s];
    - a pandas DataFrame is the list of its rows (the index is not used
      by any function of this file). *)

From Stdlib Require Import ZArith QArith.
From stdpp Require Import base list strings gmap sorting.

Close Scope Q_scope.
Open Scope Z_scope.

(** ** Python values and exceptions *)

(** Hashable scalars that occur as dictionary keys: package names are
    strings, package and manifest ids are ints. A [str] never compares
    equal to an [int]. *)
Inductive key :=
| KStr (s : string)
| KInt (n : Z).

#[global] Instance key_eq_dec : EqDecision key.
Proof. solve_decision. Defined.

#[global] Instance KStr_inj : Inj (=) (=) KStr.
Proof. by intros ?? [=]. Qed.

Inductive exn :=
| TypeError
| KeyError (k : key)
| ZeroDivisionError
| ValueError
| Exception (msg : string).

#[global] Instance exn_eq_dec : EqDecision exn.
Proof. solve_decision. Defined.

(** [inl e]: the call raised [e]; [inr a]: it returned [a]. *)
Definition result (A : Type) : Type := exn + A.

Definition Ok {A} (a : A) : result A := inr a.
Definition Raise {A} (e : exn) : result A := inl e.

#[global] Instance result_ret : MRet result := λ A a, inr a.
#[global] Instance result_bind : MBind result :=
  λ A B f m, match m with inl e => inl e | inr a => f a end.

(** A [for] loop whose body may raise: the first exception leaves the loop. *)
Fixpoint for_each {A B} (body : A → B → result A) (l : list B) (a : A) : result A :=
  match l with
  | [] => Ok a
  | b :: l' => a' ← body a b; for_each body l' a'
  end.

(** ** Dictionaries *)

(** [dict K V] is the type of the association lists from [K] to [V]. *)
Abbreviation dict K V := (list (K * V)).

Section dict.
Context {K V : Type} `{EqDecision K}.

Fixpoint dict_get (d : dict K V) (k : K) : option V :=
  match d with
  | [] => None
  | (k', v) :: d' => if decide (k' = k) then Some v else dict_get d' k
  end.

(** [k in d] *)
Definition dict_contains (d : dict K V) (k : K) : bool :=
  match dict_get d k with Some _ => true | None => false end.

(** [d[k] = v] *)
Fixpoint dict_set (d : dict K V) (k : K) (v : V) : dict K V :=
  match d with
  | [] => [(k, v)]
  | (k', v') :: d' =>
      if decide (k' = k) then (k', v) :: d' else (k', v') :: dict_set d' k v
  end.

Definition keys (d : dict K V) : list K := d.*1.
Definition values (d : dict K V) : list V := d.*2.
End dict.

(** [d[k]] on a dictionary with scalar keys: a missing key raises. *)
Definition getitem {V} (d : dict key V) (k : key) : result V :=
  match dict_get d k with
  | Some v => Ok v
  | None => Raise (KeyError k)
  end.

(** ** Identifier mapper *)

(** A manifest is the sequence of its package names. *)
Definition manifest := list string.

Definition package_step (st : dict key Z * Z) (package_name : string)
  : dict key Z * Z :=
  let '(package_id_dict, count) := st in
  if dict_contains package_id_dict (KStr package_name)
  then (package_id_dict, count)
  else (dict_set package_id_dict (KStr package_name) count, count + 1).

Definition generate_package_id_dict (manifest_list : list manifest) : dict key Z :=
  let package_id_dict : dict key Z := [] in
  let count := 0 in
  fst (fold_left (λ st manifest, fold_left package_step manifest st)
         manifest_list (package_id_dict, count)).

Definition package_set_of (package_id_dict : dict key Z) (manifest : manifest)
  : result (gset Z) :=
  for_each (λ package_set each_package,
              id ← getitem package_id_dict (KStr each_package);
              Ok ({[ id ]} ∪ package_set))
           manifest (∅ : gset Z).

Definition manifest_step (package_id_dict : dict key Z)
    (st : Z * dict Z (list Z)) (manifest : manifest)
  : result (Z * dict Z (list Z)) :=
  let '(count, manifest_id_dict) := st in
  package_set ← package_set_of package_id_dict manifest;
  Ok (count + 1, dict_set manifest_id_dict count (elements package_set)).

Definition generate_manifest_id_dict (manifest_list : list manifest)
    (package_id_dict : dict key Z) : result (dict Z (list Z)) :=
  let count := 0 in
  let manifest_id_dict : dict Z (list Z) := [] in
  st ← for_each (manifest_step package_id_dict) manifest_list
                (count, manifest_id_dict);
  Ok (snd st).

(** ** Validation and length trimming *)

Section preprocess.
(** [bq_validator.validate_pypi]: the external registry validator. *)
Variable validate_pypi : manifest → manifest.

(** The loop body reads [manifest_list[idx]] and stores the filtered
    manifest back at the same index of the same list object. *)
Definition validate_manifest_data (manifest_list : list manifest)
  : list manifest :=
  fold_left
    (λ (manifest_list : list manifest) idx,
       match manifest_list !! idx with
       | Some manifest =>
           let filtered_manifest := validate_pypi manifest in
           <[idx := filtered_manifest]> manifest_list
       | None => manifest_list
       end)
    (seq 0 (length manifest_list)) manifest_list.

(** [lower_limit < len(manifest) < upper_limit] *)
Definition within_limits (lower_limit upper_limit : Z) (manifest : manifest)
  : bool :=
  (lower_limit <? Z.of_nat (length manifest))
  && (Z.of_nat (length manifest) <? upper_limit).

Definition trim_manifest_list (lower_limit upper_limit : Z)
    (all_manifest_list : list manifest) : list manifest :=
  List.filter (within_limits lower_limit upper_limit) all_manifest_list.

(** The raw data read from storage; ['package_list'] may be absent. *)
Record raw_data := { package_list : option (list manifest) }.

(** [raw_data_dict.get('package_list', [])] returns the list object
    stored in the dictionary, so the in-place validation is visible
    through [raw_data_dict] afterwards: the first component of the
    result is the dictionary as the caller sees it after the call. *)
Definition preprocess_raw_data (raw_data_dict : raw_data)
    (lower_limit upper_limit : Z)
  : result (raw_data * (dict key Z * dict Z (list Z))) :=
  let all_manifest_list := default [] (package_list raw_data_dict) in
  let all_manifest_list := validate_manifest_data all_manifest_list in
  let raw_data_dict :=
    {| package_list := (λ _, all_manifest_list) <$> package_list raw_data_dict |} in
  let trimmed_manifest_list :=
    trim_manifest_list lower_limit upper_limit all_manifest_list in
  let package_id_dict := generate_package_id_dict trimmed_manifest_list in
  manifest_id_dict ←
    generate_manifest_id_dict trimmed_manifest_list package_id_dict;
  Ok (raw_data_dict, (package_id_dict, manifest_id_dict)).
End preprocess.

(** ** Interaction table *)

Record row := { UserId : Z; ItemId : Z; Count : Z }.

#[global] Instance row_eq_dec : EqDecision row.
Proof. solve_decision. Defined.

Definition DataFrame := list row.

(** [manifest_dict] is the ManifestIdMap (int manifest id to the list of
    int package ids, so [int(k)] is [k]); [package_dict] is the
    PackageIdMap. The body indexes [package_dict] with each element of the
    manifest's list, that is with an int package id. *)
Definition make_user_item_df (manifest_dict : dict Z (list Z))
    (package_dict : dict key Z) : result (list row) :=
  let user_item_list : list row := [] in
  for_each
    (λ user_item_list '(k, v),
       let user_id := k in
       for_each
         (λ user_item_list package,
            item_id ← getitem package_dict (KInt package);
            Ok (user_item_list
                  ++ [{| UserId := user_id; ItemId := item_id; Count := 1 |}]))
         v user_item_list)
    manifest_dict user_item_list.

(** ** Values whose dynamic type decides what a call does *)

Inductive object :=
| PyInt (n : Z)
| PyFrame (df : DataFrame)
(** a bound method of [df.groupby(by)] that has not been called *)
| PyBoundMethod (df : DataFrame) (by_ name : string).

(** ** pandas operations used by the splitter *)

(** The first element of every class of [f]: [drop_duplicates(subset)]
    with the default [keep='first']. *)
Fixpoint first_by {A B} `{EqDecision B} (f : A → B) (l : list A) : list A :=
  match l with
  | [] => []
  | x :: l' => x :: List.filter (λ y, bool_decide (f y ≠ f x)) (first_by f l')
  end.

Definition drop_duplicates_subset (column : row → Z) (df : DataFrame) : DataFrame :=
  first_by column df.

Definition drop_duplicates (df : DataFrame) : DataFrame :=
  first_by (λ r : row, r) df.

Definition occurrences (r : row) (df : DataFrame) : nat :=
  length (List.filter (λ r', bool_decide (r' = r)) df).

(** [drop_duplicates(keep=False)]: every row that occurs more than once
    is dropped, all its copies included. *)
Definition drop_duplicates_keep_false (df : DataFrame) : DataFrame :=
  List.filter (λ r, bool_decide (occurrences r df = 1%nat)) df.

(** [df[:n]] *)
Definition head_rows (n : Z) (df : DataFrame) : DataFrame :=
  if 0 <=? n then take (Z.to_nat n) df
  else take (length df - Z.to_nat (- n)) df.

(** ** Rational arithmetic of the splitter *)

(** [fractions.Fraction(numerator, denominator)]: both arguments must be
    rational numbers, anything else raises [TypeError]. *)
Definition Fraction (numerator denominator : object) : result Q :=
  match numerator, denominator with
  | PyInt n, PyInt d =>
      if decide (d = 0) then Raise ZeroDivisionError
      else Ok (inject_Z n / inject_Z d)%Q
  | _, _ => Raise TypeError
  end.

(** [round(q)] of a [Fraction]: to the nearest integer, ties to even. *)
Definition round_half_even (q : Q) : Z :=
  let floor := Qnum q / Z.pos (Qden q) in
  let remainder := Qnum q mod Z.pos (Qden q) in
  if remainder * 2 <? Z.pos (Qden q) then floor
  else if Z.pos (Qden q) <? remainder * 2 then floor + 1
  else if Z.even floor then floor
  else floor + 1.

(** [round(q, 2)] *)
Definition round_2 (q : Q) : Q :=
  (inject_Z (round_half_even (q * inject_Z 100)) / inject_Z 100)%Q.

(** The double nearest to the literal [0.80]; a [Fraction] is compared
    with a float through the float's exact value. *)
Definition float_0_80 : Q := (3602879701896397 # 4503599627370496)%Q.

Definition Qlt_bool (a b : Q) : bool := negb (Qle_bool b a).

Section splitter.
(** [df.sample(frac=1)]: the random shuffle, one function per call site. *)
Variable sample : nat → DataFrame → DataFrame.

(** The float subtraction, the ["%.2f"] formatting, the float product
    and its rounding are taken on exact rationals. *)
Definition extra_df (frac : Q) (data_df train_df : DataFrame) : DataFrame :=
  let remain_frac := round_2 (float_0_80 - frac)%Q in
  let len_df := Z.of_nat (length data_df) in
  let no_rows := round_half_even (remain_frac * inject_Z len_df)%Q in
  let df_remain := drop_duplicates_keep_false (data_df ++ train_df) in
  let df_remain_rand := sample 2 df_remain in
  head_rows no_rows df_remain_rand.

(** Lines 172-176: the user-coverage and item-coverage subsets and
    their row-wise union. *)
Definition coverage_rows (data_df : DataFrame) : DataFrame * DataFrame :=
  let data_df := sample 0 data_df in
  let df_user := drop_duplicates_subset UserId data_df in
  let data_df := sample 1 data_df in
  let df_item := drop_duplicates_subset ItemId data_df in
  let train_df := drop_duplicates (df_user ++ df_item) in
  (data_df, train_df).

Definition train_test_split (data_df : DataFrame)
  : result (DataFrame * DataFrame) :=
  let '(data_df, train_df) := coverage_rows data_df in
  ratio ← Fraction (PyFrame data_df) (PyFrame train_df);
  let fraction := round_2 ratio in
  let train_df :=
    if Qlt_bool fraction float_0_80
    then let df_ := extra_df fraction data_df train_df in train_df ++ df_
    else train_df in
  let test_df := drop_duplicates_keep_false (data_df ++ train_df) in
  Ok (train_df, test_df).
End splitter.

(** ** Evaluator *)

(** The fitted model: [topN user n] is
    [recommender.topN(user=user, n=n, exclude_seen=True)]. *)
Record HPF := { topN : Z → Z → list Z }.

(** [range(stop)]: [stop] must be an integer. *)
Definition py_range (stop : object) : result (list Z) :=
  match stop with
  | PyInt n => Ok (Z.of_nat <$> seq 0 (Z.to_nat n))
  | _ => Raise TypeError
  end.

(** [a / b] on ints *)
Definition truediv (a b : Z) : result Q :=
  if decide (b = 0) then Raise ZeroDivisionError
  else Ok (inject_Z a / inject_Z b)%Q.

(** [try: body except E: handler] *)
Definition try_except {A} (body : result A) (E : exn) (handler : result A)
  : result A :=
  match body with
  | inl e => if decide (e = E) then handler else inl e
  | inr a => inr a
  end.

(** [np.intersect1d]: the sorted distinct values present in both arrays. *)
Definition intersect1d (ar1 ar2 : list Z) : list Z :=
  merge_sort Z.le
    (remove_dups (List.filter (λ a, bool_decide (a ∈ ar2)) ar1)).

(** [np.array(test_df.loc[test_df.UserId.isin([i])].ItemId)] *)
Definition items_of (test_df : DataFrame) (i : Z) : list Z :=
  ItemId <$> List.filter (λ r, bool_decide (UserId r = i)) test_df.

(** An entry of the array handed to [np.mean]: a number, or a dictionary
    with string keys. *)
Inductive element :=
| Number (q : Q)
| Mapping (d : dict string Q).

Inductive float64 :=
| nan
| finite (q : Q).

(** [np.mean] of a one-dimensional sequence: [nan] for an empty one;
    otherwise the sum of the entries over their number, where a
    dictionary entry supports neither [+] nor [/]. *)
Definition np_mean (a : list element) : result float64 :=
  match a with
  | [] => Ok nan
  | _ =>
      total ← for_each
                (λ acc x, match x with
                          | Number q => Ok (acc + q)%Q
                          | Mapping _ => Raise TypeError
                          end) a 0%Q;
      Ok (finite (total / inject_Z (Z.of_nat (length a)))%Q)
  end.

Definition recall_body (m : Z) (test_df : DataFrame) (recommender : HPF)
    (recall : list (dict string Q)) (i : Z) : result (list (dict string Q)) :=
  let x := items_of test_df i in
  let rec_l := Z.of_nat (length x) in
  let recommendations := topN recommender i m in
  let intersection_length :=
    Z.of_nat (length (intersect1d x recommendations)) in
  try_except
    (q ← truediv intersection_length rec_l;
     Ok (recall ++ [[("recall"%string, q); ("length"%string, inject_Z rec_l);
                     ("user"%string, inject_Z i)]]))
    ZeroDivisionError
    (Ok recall).

Definition recall_at_m (m : Z) (test_df : DataFrame) (recommender : HPF)
    (user_count : object) : result float64 :=
  users ← py_range user_count;
  recall ← for_each (recall_body m test_df recommender) users [];
  np_mean (Mapping <$> recall).

Definition precision_body (m : Z) (test_df : DataFrame) (recommender : HPF)
    (precision : list (dict string Q)) (i : Z) : result (list (dict string Q)) :=
  let x := items_of test_df i in
  let recommendations := topN recommender i m in
  let r_size := Z.of_nat (length recommendations) in
  let intersection_length :=
    Z.of_nat (length (intersect1d x recommendations)) in
  try_except
    (q ← truediv intersection_length r_size;
     Ok (precision ++ [[("precision"%string, q);
                        ("length"%string, inject_Z r_size);
                        ("user"%string, inject_Z i)]]))
    ZeroDivisionError
    (Ok precision).

Definition precision_at_m (m : Z) (test_df : DataFrame) (recommender : HPF)
    (user_count : object) : result float64 :=
  users ← py_range user_count;
  precision ← for_each (precision_body m test_df recommender) users [];
  np_mean (Mapping <$> precision).

(** [user_count] is bound to the method [size] of the group-by object,
    not to the result of calling it. Falling off the [except ValueError]
    branch returns [None]. *)
Definition precision_recall_at_m (m : Z) (test_df : DataFrame)
    (recommender : HPF) (user_item_df : DataFrame)
  : result (option (float64 * float64)) :=
  let user_count := PyBoundMethod user_item_df "UserId" "size" in
  try_except
    (precision ← precision_at_m m test_df recommender user_count;
     recall ← recall_at_m m test_df recommender user_count;
     Ok (Some (precision, recall)))
    ValueError
    (Ok None).

(** ** Artifact publisher *)

Section publisher.
(** What is stored under a key. *)
Context {content : Type}.

(** The storage paths of [src.config.path_constants]. *)
Variables PACKAGE_TO_ID_MAP MANIFEST_TO_ID_MAP HYPERPARAMETERS_PATH : string.

(** The storage client together with the bucket behind it: the stored
    objects, which keys the backend accepts a write for, and the trace
    of the writes that were attempted. *)
Record AmazonS3 := {
  bucket : gmap string content;
  accepts : string → bool;
  attempted : list string
}.

(** A computation on the client: its outcome and the client after it. An
    exception does not undo the writes made before it. *)
Definition s3 (A : Type) : Type := AmazonS3 → result A * AmazonS3.

Definition object_exists (s3_client : AmazonS3) (object_key : string) : bool :=
  bool_decide (is_Some (bucket s3_client !! object_key)).

(** [write_json_file] reports its status; a refused write stores nothing. *)
Definition write_json_file (s3_client : AmazonS3) (filename : string)
    (contents : content) : bool * AmazonS3 :=
  let status := accepts s3_client filename in
  (status,
   {| bucket := if status then <[filename := contents]> (bucket s3_client)
                else bucket s3_client;
      accepts := accepts s3_client;
      attempted := attempted s3_client ++ [filename] |}).

Definition save_dictionaries (package_id_dict manifest_id_dict : content)
  : s3 unit :=
  λ s3_client,
    if negb (object_exists s3_client PACKAGE_TO_ID_MAP
             && object_exists s3_client MANIFEST_TO_ID_MAP)
    then
      let '(pkg_status, s3_client) :=
        write_json_file s3_client PACKAGE_TO_ID_MAP package_id_dict in
      let '(mnf_status, s3_client) :=
        write_json_file s3_client MANIFEST_TO_ID_MAP manifest_id_dict in
      (** [not pkg_status or mnf_status] *)
      if negb pkg_status || mnf_status
      then (Raise (Exception "Unable to store data files for scoring"),
            s3_client)
      else (Ok (), s3_client)
    else (Ok (), s3_client).

Definition save_hyperparams (content_json : content) : s3 unit :=
  λ s3_client,
    let '(status, s3_client) :=
      write_json_file s3_client HYPERPARAMETERS_PATH content_json in
    if negb status
    then (Raise (Exception "Unable to store hyperparameters file"), s3_client)
    else (Ok (), s3_client).

(** Two calls in a row on the same client; the second runs whatever the
    outcome of the first. *)
Definition save_dictionaries_twice (package_id_dict manifest_id_dict : content)
  : AmazonS3 → (result unit * result unit) * AmazonS3 :=
  λ s3_client,
    let '(first, s3_client) :=
      save_dictionaries package_id_dict manifest_id_dict s3_client in
    let '(second, s3_client) :=
      save_dictionaries package_id_dict manifest_id_dict s3_client in
    ((first, second), s3_client).

(** How often a key was the target of a write. *)
Definition writes_to (object_key : string) (s3_client : AmazonS3) : nat :=
  length (List.filter (λ k, bool_decide (k = object_key)) (attempted s3_client)).
End publisher.

Arguments AmazonS3 : clear implicits.

(** ** Reference notions used in the statements *)

(** The distinct elements of a list, each at its first occurrence. *)
Definition first_occurrences (names : list string) : list string :=
  first_by (λ name : string, name) names.

(** The dictionary that gives the [i]-th name the id [i]. *)
Definition numbered (names : list string) : dict key Z :=
  imap (λ i name, (KStr name, Z.of_nat i)) names.

(** The entry the recall loop appends for user [i]. *)
Definition recall_sample (m : Z) (test_df : DataFrame) (recommender : HPF)
    (i : Z) : dict string Q :=
  let x := items_of test_df i in
  [("recall"%string,
    (inject_Z (Z.of_nat (length (intersect1d x (topN recommender i m))))
     / inject_Z (Z.of_nat (length x)))%Q);
   ("length"%string, inject_Z (Z.of_nat (length x)));
   ("user"%string, inject_Z i)].

(** The entry the precision loop appends for user [i]. *)
Definition precision_sample (m : Z) (test_df : DataFrame) (recommender : HPF)
    (i : Z) : dict string Q :=
  let recommendations := topN recommender i m in
  [("precision"%string,
    (inject_Z (Z.of_nat (length (intersect1d (items_of test_df i) recommendations)))
     / inject_Z (Z.of_nat (length recommendations)))%Q);
   ("length"%string, inject_Z (Z.of_nat (length recommendations)));
   ("user"%string, inject_Z i)].

(** The user ids [0 .. user_count - 1]. *)
Definition user_ids (user_count : Z) : list Z :=
  Z.of_nat <$> seq 0 (Z.to_nat user_count).

(** The table of two users that both hold the same five items. *)
Definition two_by_five : DataFrame :=
  u ← [0; 1]; i ← [0; 1; 2; 3; 4]; [{| UserId := u; ItemId := i; Count := 1 |}].

(** A model that recommends item 0 to everybody. *)
Definition always_item_0 : HPF := {| topN := λ _ _, [0] |}.

(** Clients used as concrete inputs: an empty bucket behind a backend
    that accepts every write, one whose backend refuses the manifest map,
    and one that already holds a package map. *)
Definition package_map_path : string := "trained-model/package_id_dict.json".
Definition manifest_map_path : string := "trained-model/manifest_id_dict.pickle".

Definition empty_accepting : AmazonS3 Z :=
  {| bucket := ∅; accepts := λ _, true; attempted := [] |}.

Definition empty_refusing_manifest_map : AmazonS3 Z :=
  {| bucket := ∅;
     accepts := λ k, bool_decide (k ≠ manifest_map_path);
     attempted := [] |}.

Definition holding_package_map : AmazonS3 Z :=
  {| bucket := {[ package_map_path := 1 ]}; accepts := λ _, true;
     attempted := [] |}.

Definition holding_both_maps : AmazonS3 Z :=
  {| bucket := {[ package_map_path := 1; manifest_map_path := 2 ]};
     accepts := λ _, true; attempted := [] |}.

(** A validator that knows every package but ["x"]. *)
Definition all_but_x (names : manifest) : manifest :=
  List.filter (λ name, bool_decide (name ≠ "x"%string)) names.

(** The (manifest id, package id) pairs of a ManifestIdMap, manifest by
    manifest and package by package. *)
Definition interactions (manifest_dict : dict Z (list Z)) : list (Z * Z) :=
  '(k, v) ← manifest_dict; pair k <$> v.

(** ** The whole publication *)

(** The dictionary [contents] that [save_obj] builds. *)
Record metrics := {
  minimum_length_of_manifest : Z;
  maximum_length_of_manifest : Z;
  precision_at_30 : float64;
  recall_at_30 : float64;
  precision_at_50 : float64;
  recall_at_50 : float64;
  latent_factor : Z
}.

(** What the training run stores. *)
Inductive artifact :=
| Pickled (recommender : HPF)
| FormattedPackages (ecosystem : string) (package_list : dict key Z)
| FormattedManifests (ecosystem : string) (manifest_list : dict Z (list Z))
| Hyperparameters (contents : metrics).

Section publication.
(** The storage paths of [src.config.path_constants]. *)
Variables HPF_MODEL_PATH PACKAGE_TO_ID_MAP MANIFEST_TO_ID_MAP
  HYPERPARAMETERS_PATH : string.

(** The exception, if any, that the backend ends a pickle write to a key
    with; a write that raises stores nothing. *)
Variable pickle_failure : string → option exn.

Definition write_pickle_file (s3_client : AmazonS3 artifact) (filename : string)
    (contents : artifact) : result bool * AmazonS3 artifact :=
  match pickle_failure filename with
  | Some exc =>
      (Raise exc,
       {| bucket := bucket s3_client;
          accepts := accepts s3_client;
          attempted := attempted s3_client ++ [filename] |})
  | None =>
      let '(status, s3_client) := write_json_file s3_client filename contents in
      (Ok status, s3_client)
  end.

(** Both branches only log: the status in the [try] branch, the exception
    in the [except Exception] branch, which catches every exception. *)
Definition save_model (recommender : HPF)
  : AmazonS3 artifact → result unit * AmazonS3 artifact :=
  λ s3_client,
    let '(outcome, s3_client) :=
      write_pickle_file s3_client HPF_MODEL_PATH (Pickled recommender) in
    match outcome with
    | inr status => (Ok (), s3_client)
    | inl exc => (Ok (), s3_client)
    end.

(** One statement after the other on the same client; an exception ends
    the sequence and keeps the client as it is then. *)
Definition and_then {A B}
    (first : AmazonS3 artifact → result A * AmazonS3 artifact)
    (next : A → AmazonS3 artifact → result B * AmazonS3 artifact)
  : AmazonS3 artifact → result B * AmazonS3 artifact :=
  λ s3_client,
    match first s3_client with
    | (inl exc, s3_client) => (inl exc, s3_client)
    | (inr a, s3_client) => next a s3_client
    end.

Definition save_obj (trained_recommender : HPF) (precision_30 recall_30 : float64)
    (package_id_dict manifest_id_dict : artifact)
    (precision_50 recall_50 : float64) (lower_lim upper_lim latent_factor : Z)
  : AmazonS3 artifact → result unit * AmazonS3 artifact :=
  and_then (save_model trained_recommender) (λ _,
  and_then (save_dictionaries PACKAGE_TO_ID_MAP MANIFEST_TO_ID_MAP
              package_id_dict manifest_id_dict) (λ _,
  let contents := {|
    minimum_length_of_manifest := lower_lim;
    maximum_length_of_manifest := upper_lim;
    precision_at_30 := precision_30;
    recall_at_30 := recall_30;
    precision_at_50 := precision_50;
    recall_at_50 := recall_50;
    latent_factor := latent_factor
  |} in
  save_hyperparams HYPERPARAMETERS_PATH (Hyperparameters contents))).
End publication.

(** ** Deployment proposal *)

(** The exceptions of [create_git_pr]: those of [exn] and three more. *)
Inductive pr_exn :=
| Builtin (e : exn)
| IndexError
| TimeoutExpired
| SubprocessError.

(** [needle in s] on strings. *)
Fixpoint contains (needle s : string) : bool :=
  String.prefix needle s
  || match s with
     | EmptyString => false
     | String _ s' => contains needle s'
     end.

(** [s.split(sep)] for a one-character separator: the parts between the
    separators, empty parts included. *)
Fixpoint split (sep : Ascii.ascii) (s : string) : list string :=
  match s with
  | EmptyString => [EmptyString]
  | String c s' =>
      if Ascii.eqb c sep then EmptyString :: split sep s'
      else match split sep s' with
           | part :: parts => String c part :: parts
           | [] => [String c EmptyString]
           end
  end.

(** The character [/]. *)
Definition slash : Ascii.ascii := Ascii.ascii_of_nat 47.

(** [l.remove(x)]: without the first occurrence of [x]; [None] when
    there is none (the call raises [ValueError]). *)
Fixpoint list_remove (x : string) (l : list string) : option (list string) :=
  match l with
  | [] => None
  | y :: l' => if decide (y = x) then Some l' else cons y <$> list_remove x l'
  end.

(** [max(l)] on strings: [None] for the empty list (the call raises
    [ValueError]). *)
Definition py_max (l : list string) : option string :=
  match l with
  | [] => None
  | x :: l' =>
      Some (fold_left (λ best y, if String.ltb best y then y else best) l' x)
  end.

(** [s.replace(quote, backslash + quote)] *)
Fixpoint escape_quotes (s : string) : string :=
  match s with
  | EmptyString => EmptyString
  | String c s' =>
      if Ascii.eqb c (Ascii.ascii_of_nat 34)
      then String (Ascii.ascii_of_nat 92) (String c (escape_quotes s'))
      else String c (escape_quotes s')
  end.

(** The double nearest to the literal [0.55]. *)
Definition float_0_55 : Q := (2476979795053773 # 4503599627370496)%Q.

(** [a >= b] on floats: false as soon as one of them is [nan]. *)
Definition float_ge (a b : float64) : bool :=
  match a, b with
  | finite x, finite y => Qle_bool y x
  | _, _ => false
  end.

(** How the helper script ends: [Popen] raises [ValueError] or a
    [SubprocessError], the wait of 60 seconds times out, or the process
    exits with a return code. *)
Inductive script_outcome :=
| PopenValueError
| PopenSubprocessError
| WaitTimeout
| Exited (returncode : Z).

(** What the call does to the outside. *)
Inductive effect :=
| Spawned (args : list string)
| Killed.

Section deployment.
Variables ECOSYSTEM DEPLOYMENT_PREFIX : string.
(** [s3_client.list_bucket_objects(prefix=...)], as the keys listed. *)
Variable list_bucket_objects : string → list string.
(** [s3_client.read_json_file]: a JSON object of numbers, or an exception. *)
Variable read_json_file : string → pr_exn + dict string float64.
Variable json_dumps : dict string float64 → string.
(** The helper script run on an argument list. *)
Variable run_script : list string → script_outcome.

Fixpoint dates_loop (keys : list string) (dates : list string)
  : pr_exn + list string :=
  match keys with
  | [] => inr dates
  | i :: keys' =>
      if contains "intermediate-model/hyperparameters.json" i
      then match split slash i !! 2%nat with
           | Some date => dates_loop keys' (dates ++ [date])
           | None => inl IndexError
           end
      else dates_loop keys' dates
  end.

(** Lines 302-308: the greatest version string among the listed
    hyperparameter files, the current version removed once. *)
Definition previous_version (model_version : string) : pr_exn + string :=
  let keys := list_bucket_objects (ECOSYSTEM +:+ DEPLOYMENT_PREFIX) in
  match dates_loop keys [] with
  | inl exc => inl exc
  | inr dates =>
      match list_remove model_version dates with
      | None => inl (Builtin ValueError)
      | Some dates =>
          match py_max dates with
          | None => inl (Builtin ValueError)
          | Some previous_version => inr previous_version
          end
      end
  end.

Definition hyperparameters_key (previous_version : string) : string :=
  "maven/" +:+ DEPLOYMENT_PREFIX +:+ "/" +:+ previous_version
  +:+ "/intermediate-model/hyperparameters.json".

Definition script_args (model_version description : string) : list string :=
  ["sh"; "rudra/utils/github_helper.sh"; "f8a-hpf-insights.yaml";
   "MODEL_VERSION"; model_version; description]%string.

Definition create_git_pr (model_version : string) (recall_at_30 : float64)
  : (pr_exn + unit) * list effect :=
  match previous_version model_version with
  | inl exc => (inl exc, [])
  | inr previous_version =>
      let k := hyperparameters_key previous_version in
      match read_json_file k with
      | inl exc => (inl exc, [])
      | inr prev_hyperparams =>
          let description := escape_quotes (json_dumps prev_hyperparams) in
          let prev_recall :=
            default (finite float_0_55)
                    (dict_get prev_hyperparams "recall_at_30"%string) in
          if float_ge recall_at_30 prev_recall
          then
            let args := script_args model_version description in
            match run_script args with
            | Exited returncode => (inr (), [Spawned args])
            | PopenValueError => (inl (Builtin ValueError), [])
            | WaitTimeout => (inl TimeoutExpired, [Spawned args; Killed])
            | PopenSubprocessError => (inl SubprocessError, [])
            end
          else (inr (), [])
      end
  end.
End deployment.

(** Listings used as concrete inputs. *)
Definition three_versions (prefix : string) : list string :=
  ["pypi/deployment/2019-01-03/intermediate-model/hyperparameters.json";
   "pypi/deployment/2019-01-03/intermediate-model/model.pkl";
   "pypi/deployment/2019-02-07/intermediate-model/hyperparameters.json";
   "pypi/deployment/2019-01-21/intermediate-model/hyperparameters.json"]%string.

(** * Properties *)

(** ** The result monad *)

Lemma for_each_app {A B} (body : A → B → result A) (l1 l2 : list B) (a : A) :
  for_each body (l1 ++ l2) a = (a' ← for_each body l1 a; for_each body l2 a').
Proof.
  revert a. induction l1 as [|b l1 IH]; intros a; simpl; [done|].
  destruct (body a b) as [e|a']; simpl; [done|]. apply IH.
Qed.

Lemma for_each_cons_ok {A B} (body : A → B → result A) (b : B) (l : list B)
    (a a' : A) :
  body a b = Ok a' → for_each body (b :: l) a = for_each body l a'.
Proof. intros Hb. simpl. by rewrite Hb. Qed.

Lemma for_each_cons_raise {A B} (body : A → B → result A) (b : B) (l : list B)
    (a : A) (e : exn) :
  body a b = Raise e → for_each body (b :: l) a = Raise e.
Proof. intros Hb. simpl. by rewrite Hb. Qed.

(** ** Dictionaries *)

Section dict_facts.
Context {K V : Type} `{EqDecision K}.
Implicit Types (d : dict K V) (k : K) (v : V).

Lemma dict_get_None d k : dict_get d k = None ↔ k ∉ keys d.
Proof.
  induction d as [|[k' v'] d IH]; simpl.
  - split; [intros _; apply not_elem_of_nil | done].
  - rewrite not_elem_of_cons. destruct (decide (k' = k)) as [->|Hne].
    + split; [done | intros [? _]; done].
    + rewrite IH. split; [intros ?; split; [congruence | done] | tauto].
Qed.

Lemma dict_get_app_l d1 d2 k v :
  dict_get d1 k = Some v → dict_get (d1 ++ d2) k = Some v.
Proof.
  induction d1 as [|[k' v'] d1 IH]; simpl; [done|].
  destruct (decide (k' = k)); auto.
Qed.

Lemma dict_get_app_r d1 d2 k :
  dict_get d1 k = None → dict_get (d1 ++ d2) k = dict_get d2 k.
Proof.
  induction d1 as [|[k' v'] d1 IH]; simpl; [done|].
  destruct (decide (k' = k)); [done | auto].
Qed.

Lemma dict_set_fresh d k v :
  dict_get d k = None → dict_set d k v = d ++ [(k, v)].
Proof.
  induction d as [|[k' v'] d IH]; simpl; [done|].
  destruct (decide (k' = k)); [done|]. intros Hd. by rewrite IH.
Qed.

Lemma dict_get_lookup d (i : nat) k v :
  NoDup (keys d) → d !! i = Some (k, v) → dict_get d k = Some v.
Proof.
  revert i. induction d as [|[k' v'] d IH]; intros i Hnd Hi; [done|].
  unfold keys in Hnd. rewrite fmap_cons in Hnd. apply NoDup_cons in Hnd as [Hk' Hnd].
  destruct i as [|i]; simpl in *.
  - injection Hi as -> ->. by rewrite decide_True.
  - destruct (decide (k' = k)) as [->|]; [|by eapply IH].
    exfalso. apply Hk'. apply list_elem_of_lookup. exists i.
    rewrite list_lookup_fmap, Hi. done.
Qed.
End dict_facts.

(** ** First occurrences *)

Section first_by_facts.
Context {A B : Type} `{EqDecision B} (f : A → B).

Lemma elem_of_first_by_sub (x : A) (l : list A) : x ∈ first_by f l → x ∈ l.
Proof.
  induction l as [|y l IH]; simpl; [done|].
  rewrite !elem_of_cons. intros [->|Hx]; [by left|]. right. apply IH.
  apply list_elem_of_In, List.filter_In in Hx as [Hx _].
  by apply list_elem_of_In.
Qed.

Lemma first_by_covers (x : A) (l : list A) :
  x ∈ l → ∃ y, y ∈ first_by f l ∧ f y = f x.
Proof.
  induction l as [|z l IH]; simpl; [by intros ?%elem_of_nil|].
  rewrite elem_of_cons. intros [->|Hx].
  - exists z. split; [left | done].
  - destruct (decide (f x = f z)) as [Heq|Hne].
    + exists z. split; [left | done].
    + destruct (IH Hx) as (y & Hy & Hfy). exists y. split; [|done].
      right. apply list_elem_of_In, List.filter_In. split.
      * by apply list_elem_of_In.
      * apply bool_decide_eq_true. congruence.
Qed.

Lemma NoDup_first_by (l : list A) : NoDup (f <$> first_by f l).
Proof.
  induction l as [|x l IH]; simpl; [constructor|].
  apply NoDup_cons. split.
  - intros (y & Hfy & Hy)%list_elem_of_fmap.
    apply list_elem_of_In, List.filter_In in Hy as [_ Hy].
    apply bool_decide_eq_true in Hy. congruence.
  - clear -IH. induction (first_by f l) as [|y l' IH']; simpl; [constructor|].
    rewrite fmap_cons in IH. apply NoDup_cons in IH as [Hy IH].
    case_bool_decide; [|by apply IH'].
    rewrite fmap_cons. apply NoDup_cons. split; [|by apply IH'].
    intros (z & Hfz & Hz)%list_elem_of_fmap. apply Hy.
    apply list_elem_of_fmap. exists z. split; [done|].
    apply list_elem_of_In, List.filter_In in Hz as [Hz _].
    by apply list_elem_of_In.
Qed.

Lemma first_by_snoc (l : list A) (x : A) :
  first_by f (l ++ [x])
  = if decide (f x ∈ f <$> l) then first_by f l else first_by f l ++ [x].
Proof.
  induction l as [|y l IH]; simpl.
  - done.
  - rewrite IH.
    destruct (decide (f x ∈ f <$> l)) as [Hin|Hnin];
      destruct (decide _) as [Hin'|Hnin']; try done.
    + exfalso. apply Hnin'. by right.
    + apply elem_of_cons in Hin' as [Heq|?]; [|done].
      rewrite List.filter_app. simpl.
      rewrite bool_decide_eq_false_2 by (intros ?; congruence).
      by rewrite app_nil_r.
    + rewrite List.filter_app. simpl.
      rewrite bool_decide_eq_true_2; [done|].
      intros Heq. apply Hnin'. rewrite Heq. left.
Qed.
End first_by_facts.

Lemma elem_of_first_occurrences (name : string) (names : list string) :
  name ∈ first_occurrences names ↔ name ∈ names.
Proof.
  split; [apply elem_of_first_by_sub|].
  intros Hin. destruct (first_by_covers (λ n : string, n) name names Hin)
    as (y & Hy & ->). done.
Qed.

Lemma NoDup_first_occurrences (names : list string) :
  NoDup (first_occurrences names).
Proof.
  pose proof (NoDup_first_by (λ n : string, n) names) as H.
  by rewrite list_fmap_id in H.
Qed.

Lemma first_occurrences_snoc (names : list string) (name : string) :
  first_occurrences (names ++ [name])
  = if decide (name ∈ names) then first_occurrences names
    else first_occurrences names ++ [name].
Proof.
  unfold first_occurrences. rewrite first_by_snoc, list_fmap_id. done.
Qed.

(** The number of distinct names of a list. *)
Lemma length_first_occurrences (names : list string) :
  length (first_occurrences names) = length (remove_dups names).
Proof.
  apply Permutation_length, NoDup_Permutation.
  - apply NoDup_first_occurrences.
  - apply NoDup_remove_dups.
  - intros x. by rewrite elem_of_first_occurrences, elem_of_remove_dups.
Qed.

(** ** Identifier mapper *)

Lemma elem_of_concat {A} (x : A) (ls : list (list A)) :
  x ∈ concat ls ↔ ∃ l, l ∈ ls ∧ x ∈ l.
Proof.
  induction ls as [|l ls IH]; simpl.
  - split; [by intros ?%elem_of_nil | by intros (? & ?%elem_of_nil & _)].
  - rewrite elem_of_app, IH. split.
    + intros [Hx|(l' & Hl' & Hx)]; [exists l; split; [left|done]|].
      exists l'. split; [by right|done].
    + intros (l' & [->|Hl']%elem_of_cons & Hx); [by left|]. right. by exists l'.
Qed.

Lemma keys_numbered (names : list string) : keys (numbered names) = KStr <$> names.
Proof.
  unfold keys, numbered. apply list_eq. intros i.
  rewrite !list_lookup_fmap, list_lookup_imap. by destruct (names !! i).
Qed.

Lemma values_numbered (names : list string) :
  values (numbered names) = Z.of_nat <$> seq 0 (length names).
Proof.
  unfold values, numbered. apply list_eq. intros i.
  rewrite !list_lookup_fmap, list_lookup_imap.
  destruct (names !! i) as [name|] eqn:Hi; simpl.
  - apply lookup_lt_Some in Hi. by rewrite lookup_seq_lt.
  - apply lookup_ge_None in Hi. by rewrite lookup_seq_ge.
Qed.

Lemma length_numbered (names : list string) :
  length (numbered names) = length names.
Proof. unfold numbered. apply length_imap. Qed.

Lemma numbered_snoc (names : list string) (name : string) :
  numbered (names ++ [name])
  = numbered names ++ [(KStr name, Z.of_nat (length names))].
Proof. unfold numbered. rewrite imap_app. simpl. by rewrite Nat.add_0_r. Qed.

Lemma numbered_get_None (names : list string) (name : string) :
  dict_get (numbered names) (KStr name) = None ↔ name ∉ names.
Proof.
  rewrite dict_get_None, keys_numbered. split.
  - intros Hn Hin. apply Hn. by apply list_elem_of_fmap_2.
  - intros Hn (name' & [= ->] & Hin)%list_elem_of_fmap. done.
Qed.

Lemma numbered_get_int (names : list string) (n : Z) :
  dict_get (numbered names) (KInt n) = None.
Proof.
  rewrite dict_get_None, keys_numbered.
  intros (name & Hname & _)%list_elem_of_fmap. discriminate.
Qed.

(** The inner loop of [generate_package_id_dict], run over a flat
    sequence of names from the empty dictionary. *)
Lemma package_loop (names : list string) :
  fold_left package_step names ([], 0)
  = (numbered (first_occurrences names),
     Z.of_nat (length (first_occurrences names))).
Proof.
  induction names as [|name names IH] using rev_ind; [done|].
  rewrite fold_left_app, IH, first_occurrences_snoc. simpl.
  unfold dict_contains.
  destruct (decide (name ∈ names)) as [Hin|Hnin].
  - destruct (dict_get _ _) eqn:Hget; [done|].
    apply numbered_get_None in Hget.
    by rewrite elem_of_first_occurrences in Hget.
  - assert (dict_get (numbered (first_occurrences names)) (KStr name) = None)
      as Hget by (by rewrite numbered_get_None, elem_of_first_occurrences).
    rewrite Hget, dict_set_fresh, numbered_snoc, length_app by done.
    simpl. f_equal. lia.
Qed.

Lemma package_loop_concat (manifest_list : list manifest) st :
  fold_left (λ st manifest, fold_left package_step manifest st) manifest_list st
  = fold_left package_step (concat manifest_list) st.
Proof.
  revert st. induction manifest_list as [|manifest ms IH]; intros st; [done|].
  simpl. by rewrite fold_left_app, IH.
Qed.

Lemma generate_package_id_dict_numbered (manifest_list : list manifest) :
  generate_package_id_dict manifest_list
  = numbered (first_occurrences (concat manifest_list)).
Proof.
  unfold generate_package_id_dict.
  by rewrite package_loop_concat, package_loop.
Qed.

Lemma first_occurrences_prefix (before after : list string) :
  ∃ rest, first_occurrences (before ++ after) = first_occurrences before ++ rest.
Proof.
  induction after as [|name after IH] using rev_ind.
  - exists []. by rewrite !app_nil_r.
  - destruct IH as [rest IH]. rewrite app_assoc, first_occurrences_snoc, IH.
    destruct (decide _); [by exists rest|].
    exists (rest ++ [name]). by rewrite app_assoc.
Qed.

Lemma numbered_app_get (names rest : list string) k id :
  dict_get (numbered names) k = Some id →
  dict_get (numbered (names ++ rest)) k = Some id.
Proof. unfold numbered. rewrite imap_app. apply dict_get_app_l. Qed.

Lemma numbered_get_Some (names : list string) k id :
  dict_get (numbered names) k = Some id →
  ∃ i name, k = KStr name ∧ id = Z.of_nat i ∧ names !! i = Some name.
Proof.
  induction names as [|name names IH] using rev_ind; [done|].
  rewrite numbered_snoc. destruct (dict_get (numbered names) k) eqn:Hget.
  - erewrite dict_get_app_l by done. intros [= <-].
    destruct (IH eq_refl) as (i & name' & -> & -> & Hi).
    exists i, name'. split_and!; [done..|]. by apply lookup_app_l_Some.
  - rewrite dict_get_app_r by done. simpl.
    destruct (decide _) as [<-|]; [|done]. intros [= <-].
    exists (length names), name. split_and!; [done..|]. by apply list_lookup_middle.
Qed.

(** ** Manifest ids *)

Lemma package_set_loop (package_id_dict : dict key Z) (manifest : manifest)
    (package_set : gset Z) :
  (∀ name, name ∈ manifest → is_Some (dict_get package_id_dict (KStr name))) →
  ∃ package_set',
    for_each (λ package_set each_package,
                id ← getitem package_id_dict (KStr each_package);
                Ok ({[ id ]} ∪ package_set))
             manifest package_set = Ok package_set'
    ∧ ∀ id, id ∈ package_set' ↔
        id ∈ package_set
        ∨ ∃ name, name ∈ manifest ∧ dict_get package_id_dict (KStr name) = Some id.
Proof.
  revert package_set. induction manifest as [|name manifest IH];
    intros package_set Hall; simpl.
  - exists package_set. split; [done|]. intros id. split; [by left|].
    intros [?|(? & []%elem_of_nil & _)]. done.
  - destruct (Hall name ltac:(left)) as [v Hv]. unfold getitem. rewrite Hv. simpl.
    destruct (IH ({[ v ]} ∪ package_set)) as (s & Hs & Hmem).
    { intros n Hn. apply Hall. by right. }
    exists s. split; [done|]. intros id. rewrite Hmem, elem_of_union, elem_of_singleton.
    split.
    + intros [[->|?]|(n & Hn & Hget)]; [right; exists name; split; [left|done]
                                      | by left
                                      | right; exists n; split; [by right|done]].
    + intros [?|(n & [->|Hn]%elem_of_cons & Hget)];
        [left; by right | left; left; congruence | right; by exists n].
Qed.

Lemma package_set_of_ok (package_id_dict : dict key Z) (manifest : manifest) :
  (∀ name, name ∈ manifest → is_Some (dict_get package_id_dict (KStr name))) →
  ∃ package_set,
    package_set_of package_id_dict manifest = Ok package_set
    ∧ ∀ id, id ∈ package_set ↔
        ∃ name, name ∈ manifest ∧ dict_get package_id_dict (KStr name) = Some id.
Proof.
  intros Hall. destruct (package_set_loop _ _ ∅ Hall) as (s & Hs & Hmem).
  exists s. split; [done|]. intros id. rewrite Hmem.
  split; [intros [Hem|?]; [by apply elem_of_empty in Hem | done] | by right].
Qed.

Lemma manifest_loop (package_id_dict : dict key Z) (manifest_list : list manifest)
    (count : Z) (manifest_id_dict : dict Z (list Z)) :
  (∀ k, k ∈ keys manifest_id_dict → k < count) →
  (∀ manifest name, manifest ∈ manifest_list → name ∈ manifest →
     is_Some (dict_get package_id_dict (KStr name))) →
  ∃ sets : list (gset Z),
    Forall2 (λ manifest s, package_set_of package_id_dict manifest = Ok s)
            manifest_list sets
    ∧ for_each (manifest_step package_id_dict) manifest_list
               (count, manifest_id_dict)
      = Ok (count + Z.of_nat (length manifest_list),
            manifest_id_dict
              ++ imap (λ i s, (count + Z.of_nat i, elements s)) sets).
Proof.
  revert count manifest_id_dict.
  induction manifest_list as [|manifest ms IH]; intros count md Hkeys Hall.
  - exists []. split; [constructor|]. simpl. by rewrite Z.add_0_r, app_nil_r.
  - destruct (package_set_of_ok package_id_dict manifest) as (s & Hs & _).
    { intros name Hname. eapply Hall; [left | done]. }
    assert (dict_get md count = None) as Hfresh.
    { apply dict_get_None. intros Hin. apply Hkeys in Hin. lia. }
    destruct (IH (count + 1) (md ++ [(count, elements s)])) as (sets & Hsets & Hrun).
    { intros k. unfold keys. rewrite fmap_app, elem_of_app. simpl.
      intros [Hk|Hk%list_elem_of_singleton]; [apply Hkeys in Hk|]; lia. }
    { intros m name Hm. apply Hall. by right. }
    exists (s :: sets). split; [by constructor|].
    assert (manifest_step package_id_dict (count, md) manifest
            = Ok (count + 1, md ++ [(count, elements s)])) as Hstep.
    { unfold manifest_step. rewrite Hs. simpl. by rewrite dict_set_fresh. }
    rewrite (for_each_cons_ok _ _ _ _ _ Hstep). etrans; [exact Hrun|].
    unfold Ok. cbn [length]. do 2 f_equal; [lia|].
    rewrite <- app_assoc. simpl. rewrite Z.add_0_r. do 2 f_equal.
    apply imap_ext. intros i x _. simpl. f_equal. lia.
Qed.

(** The manifest dictionary built against any package dictionary that
    knows every name of every manifest. *)
Lemma generate_manifest_id_dict_spec (manifest_list : list manifest)
    (package_id_dict : dict key Z) :
  (∀ manifest name, manifest ∈ manifest_list → name ∈ manifest →
     is_Some (dict_get package_id_dict (KStr name))) →
  ∃ manifest_id_dict,
    generate_manifest_id_dict manifest_list package_id_dict = Ok manifest_id_dict
    ∧ keys manifest_id_dict = Z.of_nat <$> seq 0 (length manifest_list)
    ∧ ∀ (i : nat) manifest, manifest_list !! i = Some manifest →
        ∃ ids, dict_get manifest_id_dict (Z.of_nat i) = Some ids
               ∧ NoDup ids
               ∧ ∀ id, id ∈ ids ↔
                   ∃ name, name ∈ manifest
                           ∧ dict_get package_id_dict (KStr name) = Some id.
Proof.
  intros Hknown.
  destruct (manifest_loop package_id_dict manifest_list 0 [])
    as (sets & Hsets & Hrun); [by intros k ?%elem_of_nil | done |].
  unfold generate_manifest_id_dict. rewrite Hrun. simpl.
  eexists. split; [done|].
  assert (length sets = length manifest_list) as Hlen
    by (symmetry; by eapply Forall2_length).
  assert (keys (imap (λ (i : nat) (s : gset Z), (0 + Z.of_nat i, elements s)) sets)
          = Z.of_nat <$> seq 0 (length manifest_list)) as Hkeys.
  { unfold keys. apply list_eq. intros i.
    rewrite !list_lookup_fmap, list_lookup_imap.
    destruct (sets !! i) as [s|] eqn:Hi; simpl.
    - apply lookup_lt_Some in Hi. rewrite lookup_seq_lt by lia. done.
    - apply lookup_ge_None in Hi. rewrite lookup_seq_ge by lia. done. }
  split; [done|]. intros i manifest Hi.
  destruct (Forall2_lookup_l _ _ _ _ _ Hsets Hi) as (s & Hs & Hset).
  exists (elements s). split_and!.
  - eapply (dict_get_lookup _ i).
    + rewrite Hkeys. apply (NoDup_fmap_2 _), NoDup_seq.
    + by rewrite list_lookup_imap, Hs.
  - apply NoDup_elements.
  - intros id. rewrite elem_of_elements.
    destruct (package_set_of_ok package_id_dict manifest) as (s' & Hs' & Hmem).
    { intros name Hname. eapply Hknown; [|done]. by eapply list_elem_of_lookup_2. }
    assert (s' = s) as -> by (unfold Ok in *; congruence). apply Hmem.
Qed.

Lemma generated_dict_knows (manifest_list : list manifest) (name : string) :
  is_Some (dict_get (generate_package_id_dict manifest_list) (KStr name))
  ↔ name ∈ concat manifest_list.
Proof.
  rewrite generate_package_id_dict_numbered, <- elem_of_first_occurrences.
  rewrite <- not_eq_None_Some, numbered_get_None.
  destruct (decide (name ∈ first_occurrences (concat manifest_list))); tauto.
Qed.

(** C6. For every manifest collection the package ids are unique, are
    exactly 0, 1, ... in the order in which the dictionary was filled,
    and follow first occurrence: the names are the distinct names of the
    manifests in order of first occurrence, and the id of a name is the
    number of distinct names seen before its first occurrence. The manifest
    ids are 0, 1, ... up to the number of manifests, and manifest id [i] is
    mapped to the duplicate-free list of the package ids of the [i]-th
    manifest. *)
Theorem identifier_mapper_ids (manifest_list : list manifest) :
  let package_id_dict := generate_package_id_dict manifest_list in
  NoDup (keys package_id_dict)
  ∧ (∀ a b id, dict_get package_id_dict a = Some id →
               dict_get package_id_dict b = Some id → a = b)
  ∧ values package_id_dict = Z.of_nat <$> seq 0 (length package_id_dict)
  ∧ keys package_id_dict = KStr <$> first_occurrences (concat manifest_list)
  ∧ (∀ name, is_Some (dict_get package_id_dict (KStr name))
             ↔ name ∈ concat manifest_list)
  ∧ (∀ before name after,
       concat manifest_list = before ++ name :: after → name ∉ before →
       dict_get package_id_dict (KStr name)
       = Some (Z.of_nat (length (remove_dups before))))
  ∧ ∃ manifest_id_dict,
      generate_manifest_id_dict manifest_list package_id_dict = Ok manifest_id_dict
      ∧ keys manifest_id_dict = Z.of_nat <$> seq 0 (length manifest_list)
      ∧ ∀ (i : nat) manifest, manifest_list !! i = Some manifest →
          ∃ ids, dict_get manifest_id_dict (Z.of_nat i) = Some ids
                 ∧ NoDup ids
                 ∧ ∀ id, id ∈ ids ↔
                     ∃ name, name ∈ manifest
                             ∧ dict_get package_id_dict (KStr name) = Some id.
Proof.
  intros d. subst d. rewrite generate_package_id_dict_numbered.
  set (names := first_occurrences (concat manifest_list)).
  assert (∀ name, is_Some (dict_get (numbered names) (KStr name))
                  ↔ name ∈ concat manifest_list) as Hdom.
  { intros name. rewrite <- elem_of_first_occurrences. fold names.
    rewrite <- not_eq_None_Some, numbered_get_None.
    destruct (decide (name ∈ names)); tauto. }
  split_and!.
  - rewrite keys_numbered. apply (NoDup_fmap_2 _), NoDup_first_occurrences.
  - intros a b id Ha Hb.
    apply numbered_get_Some in Ha as (i & na & -> & -> & Hi).
    apply numbered_get_Some in Hb as (j & nb & -> & Hij & Hj).
    apply Nat2Z.inj in Hij as <-. congruence.
  - by rewrite values_numbered, length_numbered.
  - apply keys_numbered.
  - done.
  - intros before name after Hsplit Hfresh. subst names.
    rewrite Hsplit, (cons_middle name before after), app_assoc.
    destruct (first_occurrences_prefix (before ++ [name]) after) as [rest ->].
    apply numbered_app_get.
    rewrite first_occurrences_snoc, decide_False, numbered_snoc by done.
    rewrite dict_get_app_r
      by (by rewrite numbered_get_None, elem_of_first_occurrences).
    simpl. rewrite decide_True by done. by rewrite length_first_occurrences.
  - apply generate_manifest_id_dict_spec.
    intros manifest name Hm Hname. apply Hdom, elem_of_concat. by exists manifest.
Qed.

Lemma identifier_mapper_ids_witness :
  dict_get (generate_package_id_dict [["a"; "b"; "a"]; ["c"; "b"]]%string)
           (KStr "c")
  = Some 2.
Proof.
  pose proof (identifier_mapper_ids [["a"; "b"; "a"]; ["c"; "b"]]%string) as H.
  cbv zeta in H. destruct H as (_ & _ & _ & _ & _ & H & _).
  apply (H ["a"; "b"; "a"]%string "c"%string ["b"]%string);
    [reflexivity | by apply (bool_decide_unpack _)].
Defined.

(** ** Validation and the length filter *)

Lemma within_limits_spec (lower_limit upper_limit : Z) (manifest : manifest) :
  within_limits lower_limit upper_limit manifest = true
  ↔ lower_limit < Z.of_nat (length manifest) < upper_limit.
Proof. unfold within_limits. rewrite andb_true_iff, !Z.ltb_lt. done. Qed.

Lemma trim_manifest_list_filter (lower_limit upper_limit : Z)
    (all_manifest_list : list manifest) :
  trim_manifest_list lower_limit upper_limit all_manifest_list
  = filter (λ manifest, lower_limit < Z.of_nat (length manifest) < upper_limit)
           all_manifest_list.
Proof.
  unfold trim_manifest_list.
  induction all_manifest_list as [|manifest l IH]; [done|].
  simpl. rewrite filter_cons, IH.
  destruct (within_limits _ _ _) eqn:Hw; destruct (decide _) as [Hd|Hd];
    try done; exfalso.
  - by apply Hd, within_limits_spec.
  - apply within_limits_spec in Hd. congruence.
Qed.

Lemma elem_of_trim_manifest_list (lower_limit upper_limit : Z)
    (all_manifest_list : list manifest) (manifest : manifest) :
  manifest ∈ trim_manifest_list lower_limit upper_limit all_manifest_list
  ↔ manifest ∈ all_manifest_list
    ∧ lower_limit < Z.of_nat (length manifest) < upper_limit.
Proof. rewrite trim_manifest_list_filter, list_elem_of_filter. tauto. Qed.

Section preprocess_facts.
Variable validate_pypi : manifest → manifest.

(** After the first [n] iterations the first [n] entries are validated
    and the others are still the raw ones. *)
Lemma validate_loop_prefix (manifest_list : list manifest) (n : nat) :
  (n ≤ length manifest_list)%nat →
  fold_left
    (λ (l : list manifest) idx,
       match l !! idx with
       | Some manifest => <[idx := validate_pypi manifest]> l
       | None => l
       end)
    (seq 0 n) manifest_list
  = (validate_pypi <$> take n manifest_list) ++ drop n manifest_list.
Proof.
  induction n as [|n IH]; intros Hn; [done|].
  rewrite seq_S, fold_left_app, IH by lia. simpl.
  destruct (lookup_lt_is_Some_2 manifest_list n) as [x Hx]; [lia|].
  assert (length (validate_pypi <$> take n manifest_list) = n) as Hlen
    by (rewrite length_fmap, length_take; lia).
  rewrite lookup_app_r, Hlen, Nat.sub_diag, lookup_drop, Nat.add_0_r, Hx by lia.
  rewrite insert_app_r_alt, Hlen, Nat.sub_diag by lia.
  rewrite (drop_S _ _ _ Hx), (take_S_r _ _ _ Hx), fmap_app. simpl.
  by rewrite <- app_assoc.
Qed.

Lemma validate_manifest_data_map (manifest_list : list manifest) :
  validate_manifest_data validate_pypi manifest_list
  = validate_pypi <$> manifest_list.
Proof.
  unfold validate_manifest_data.
  rewrite validate_loop_prefix, firstn_all, drop_all by done.
  apply app_nil_r.
Qed.

(** [preprocess_raw_data] never raises: every name of a trimmed manifest
    is a key of the package dictionary built from the trimmed list. *)
Lemma preprocess_raw_data_ok (raw_data_dict : raw_data)
    (lower_limit upper_limit : Z) :
  let all_manifest_list :=
    validate_pypi <$> default [] (package_list raw_data_dict) in
  let trimmed_manifest_list :=
    trim_manifest_list lower_limit upper_limit all_manifest_list in
  ∃ manifest_id_dict,
    preprocess_raw_data validate_pypi raw_data_dict lower_limit upper_limit
    = Ok ({| package_list :=
               (λ _, all_manifest_list) <$> package_list raw_data_dict |},
          (generate_package_id_dict trimmed_manifest_list, manifest_id_dict))
    ∧ generate_manifest_id_dict trimmed_manifest_list
        (generate_package_id_dict trimmed_manifest_list)
      = Ok manifest_id_dict
    ∧ keys manifest_id_dict
      = Z.of_nat <$> seq 0 (length trimmed_manifest_list).
Proof.
  intros all trimmed.
  destruct (generate_manifest_id_dict_spec trimmed
              (generate_package_id_dict trimmed)) as (md & Hmd & Hkeys & _).
  { intros manifest name Hm Hname. apply generated_dict_knows, elem_of_concat.
    by exists manifest. }
  exists md. split_and!; [|done..].
  unfold preprocess_raw_data. rewrite validate_manifest_data_map.
  fold all. fold trimmed. by rewrite Hmd.
Qed.
End preprocess_facts.

(** C10. [validate_manifest_data] replaces the manifest at every index by
    what the validator returns for it and keeps the number of manifests;
    the list reached through the raw data after [preprocess_raw_data] is
    that validated list (the list object is updated in place). A manifest
    validated to no package stays in the list as an empty entry, and the
    length trim keeps an empty entry only under limits with
    [lower_limit < 0 < upper_limit]. *)
Theorem validate_manifest_data_in_place (validate_pypi : manifest → manifest)
    (manifest_list : list manifest) :
  let validated := validate_manifest_data validate_pypi manifest_list in
  length validated = length manifest_list
  ∧ (∀ (idx : nat), validated !! idx = validate_pypi <$> manifest_list !! idx)
  ∧ (∀ (idx : nat) manifest,
       manifest_list !! idx = Some manifest → validate_pypi manifest = [] →
       validated !! idx = Some [])
  ∧ (∀ lower_limit upper_limit, ∃ dicts,
       preprocess_raw_data validate_pypi {| package_list := Some manifest_list |}
                           lower_limit upper_limit
       = Ok ({| package_list := Some validated |}, dicts))
  ∧ (∀ lower_limit upper_limit,
       [] ∈ trim_manifest_list lower_limit upper_limit validated
       ↔ [] ∈ validated ∧ lower_limit < 0 < upper_limit).
Proof.
  intros validated. subst validated. rewrite validate_manifest_data_map.
  split_and!.
  - apply length_fmap.
  - intros idx. apply list_lookup_fmap.
  - intros idx manifest Hidx Hempty. by rewrite list_lookup_fmap, Hidx, <- Hempty.
  - intros lower_limit upper_limit.
    destruct (preprocess_raw_data_ok validate_pypi
                {| package_list := Some manifest_list |} lower_limit upper_limit)
      as (md & Hrun & _).
    eexists. exact Hrun.
  - intros lower_limit upper_limit. apply elem_of_trim_manifest_list.
Qed.

Lemma validate_manifest_data_in_place_witness :
  validate_manifest_data all_but_x [["a"; "x"]; ["x"]; ["b"]]%string
    !! 1%nat = Some [].
Proof.
  pose proof (validate_manifest_data_in_place all_but_x
                [["a"; "x"]; ["x"]; ["b"]]%string) as H.
  cbv zeta in H. destruct H as (_ & _ & H & _).
  apply (H 1%nat ["x"]%string); reflexivity.
Defined.

(** C7. The manifests retained by [preprocess_raw_data] are exactly the
    validated manifests whose package count lies strictly between the two
    limits, in their order: a manifest of length [lower_limit] or
    [upper_limit] is excluded, one of length [lower_limit + 1] to
    [upper_limit - 1] is included, and the identifier dictionaries are
    built from the retained manifests only. *)
Theorem length_filter_strict (validate_pypi : manifest → manifest)
    (raw_data_dict : raw_data) (lower_limit upper_limit : Z) :
  let all_manifest_list :=
    validate_manifest_data validate_pypi
      (default [] (package_list raw_data_dict)) in
  let trimmed_manifest_list :=
    trim_manifest_list lower_limit upper_limit all_manifest_list in
  trimmed_manifest_list
  = filter (λ manifest, lower_limit < Z.of_nat (length manifest) < upper_limit)
           all_manifest_list
  ∧ (∀ manifest,
       manifest ∈ trimmed_manifest_list
       ↔ manifest ∈ all_manifest_list
         ∧ lower_limit < Z.of_nat (length manifest) < upper_limit)
  ∧ (∀ manifest,
       Z.of_nat (length manifest) = lower_limit
       ∨ Z.of_nat (length manifest) = upper_limit →
       manifest ∉ trimmed_manifest_list)
  ∧ (∀ manifest,
       manifest ∈ all_manifest_list →
       lower_limit + 1 ≤ Z.of_nat (length manifest) ≤ upper_limit - 1 →
       manifest ∈ trimmed_manifest_list)
  ∧ ∃ raw_data_dict' manifest_id_dict,
      preprocess_raw_data validate_pypi raw_data_dict lower_limit upper_limit
      = Ok (raw_data_dict',
            (generate_package_id_dict trimmed_manifest_list, manifest_id_dict))
      ∧ generate_manifest_id_dict trimmed_manifest_list
          (generate_package_id_dict trimmed_manifest_list)
        = Ok manifest_id_dict
      ∧ keys manifest_id_dict
        = Z.of_nat <$> seq 0 (length trimmed_manifest_list).
Proof.
  intros all trimmed. subst all trimmed. split_and!.
  - apply trim_manifest_list_filter.
  - intros manifest. apply elem_of_trim_manifest_list.
  - intros manifest Hlen Hin. apply elem_of_trim_manifest_list in Hin. lia.
  - intros manifest Hin Hlen. apply elem_of_trim_manifest_list. split; [done|lia].
  - rewrite validate_manifest_data_map.
    destruct (preprocess_raw_data_ok validate_pypi raw_data_dict
                lower_limit upper_limit) as (md & Hrun & Hmd & Hkeys).
    eexists _, md. split_and!; [exact Hrun | exact Hmd | exact Hkeys].
Qed.

Lemma length_filter_strict_witness :
  ["a"; "b"]%string
  ∈ trim_manifest_list 1 3
      (validate_manifest_data all_but_x
         [["a"]; ["a"; "x"; "b"]; ["a"; "b"; "c"]]%string).
Proof.
  pose proof (length_filter_strict all_but_x
                {| package_list :=
                     Some [["a"]; ["a"; "x"; "b"]; ["a"; "b"; "c"]]%string |}
                1 3) as H.
  cbv zeta in H. destruct H as (_ & _ & _ & H & _).
  apply H; [by apply (bool_decide_unpack _) | simpl; lia].
Defined.

(** ** Interaction table builder *)

Lemma dict_get_elem_of {K V} `{EqDecision K} (d : dict K V) (k : K) (v : V) :
  dict_get d k = Some v → (k, v) ∈ d.
Proof.
  induction d as [|[k' v'] d IH]; simpl; [done|].
  destruct (decide (k' = k)) as [->|]; [intros [= ->]; left | right; auto].
Qed.

(** The inner loop stops at the first package id: an int is not a key of
    a dictionary whose keys are package names. *)
Lemma make_user_item_df_inner (package_dict : dict key Z) (user_id : Z)
    (v : list Z) (user_item_list : list row) :
  (∀ n, dict_get package_dict (KInt n) = None) →
  for_each
    (λ user_item_list package,
       item_id ← getitem package_dict (KInt package);
       Ok (user_item_list
             ++ [{| UserId := user_id; ItemId := item_id; Count := 1 |}]))
    v user_item_list
  = match v with
    | [] => Ok user_item_list
    | package :: _ => Raise (KeyError (KInt package))
    end.
Proof.
  intros Hint. destruct v as [|package v]; [done|].
  simpl. unfold getitem. by rewrite Hint.
Qed.

Lemma make_user_item_df_loop (package_dict : dict key Z)
    (manifest_dict : dict Z (list Z)) (user_item_list : list row) :
  (∀ n, dict_get package_dict (KInt n) = None) →
  for_each
    (λ user_item_list '(k, v),
       let user_id := k in
       for_each
         (λ user_item_list package,
            item_id ← getitem package_dict (KInt package);
            Ok (user_item_list
                  ++ [{| UserId := user_id; ItemId := item_id; Count := 1 |}]))
         v user_item_list)
    manifest_dict user_item_list
  = match concat (values manifest_dict) with
    | [] => Ok user_item_list
    | package :: _ => Raise (KeyError (KInt package))
    end.
Proof.
  intros Hint. revert user_item_list.
  induction manifest_dict as [|[k v] md IH]; intros user_item_list; [done|].
  cbn [for_each]. rewrite make_user_item_df_inner by done.
  destruct v as [|package v]; [|done]. simpl. apply IH.
Qed.

(** With a PackageIdMap (keys are names) the builder returns, with no
    record, exactly when every manifest's id list is empty; otherwise it
    raises [KeyError] on the first package id it meets. *)
Lemma make_user_item_df_names_only (manifest_dict : dict Z (list Z))
    (package_dict : dict key Z) :
  (∀ n, dict_get package_dict (KInt n) = None) →
  make_user_item_df manifest_dict package_dict
  = match concat (values manifest_dict) with
    | [] => Ok []
    | package :: _ => Raise (KeyError (KInt package))
    end.
Proof. intros Hint. unfold make_user_item_df. by apply make_user_item_df_loop. Qed.

(** C8 (the code departs from the claim). On the ManifestIdMap [{0: [0]}]
    and the PackageIdMap [{'numpy': 0}] the builder raises [KeyError]
    instead of emitting the record (0, 0, 1); and so it does on the two
    dictionaries the identifier mapper generates from any manifest
    collection with a non-empty manifest. *)
Theorem make_user_item_df_key_error :
  make_user_item_df [(0, [0])] [(KStr "numpy", 0)] = Raise (KeyError (KInt 0))
  ∧ ∀ manifest_list manifest_id_dict,
      generate_manifest_id_dict manifest_list
        (generate_package_id_dict manifest_list) = Ok manifest_id_dict →
      (∃ manifest, manifest ∈ manifest_list ∧ manifest ≠ []) →
      ∃ package,
        make_user_item_df manifest_id_dict
          (generate_package_id_dict manifest_list)
        = Raise (KeyError (KInt package)).
Proof.
  split; [done|]. intros manifest_list md Hmd (manifest & Hin & Hne).
  rewrite make_user_item_df_names_only
    by (intros n; rewrite generate_package_id_dict_numbered;
        apply numbered_get_int).
  destruct (concat (values md)) as [|package rest] eqn:Hflat; [|by exists package].
  exfalso.
  destruct (generate_manifest_id_dict_spec manifest_list
              (generate_package_id_dict manifest_list))
    as (md' & Hmd' & _ & Hsets).
  { intros m name Hm Hname. apply generated_dict_knows, elem_of_concat.
    by exists m. }
  assert (md' = md) as -> by (unfold Ok in *; congruence).
  apply list_elem_of_lookup in Hin as [i Hi].
  destruct (Hsets i manifest Hi) as (ids & Hget & _ & Hids).
  destruct manifest as [|name manifest]; [done|].
  destruct (generated_dict_knows manifest_list name) as [_ [id Hid]].
  { apply elem_of_concat. exists (name :: manifest). split; [|left].
    by eapply list_elem_of_lookup_2. }
  assert (id ∈ ids) as Hidin by (apply Hids; exists name; split; [left|done]).
  assert (id ∈ concat (values md)) as Hflatin.
  { apply elem_of_concat. exists ids. split; [|done].
    apply dict_get_elem_of in Hget. unfold values.
    apply list_elem_of_fmap. by exists (Z.of_nat i, ids). }
  rewrite Hflat in Hflatin. by apply elem_of_nil in Hflatin.
Qed.

(** ** Splitter *)

(** The coverage part of the split does what its name says whenever the
    two shuffles return permutations of their argument. *)
Lemma coverage_rows_cover (sample : nat → DataFrame → DataFrame)
    (data_df : DataFrame) (r : row) :
  sample 0%nat data_df ≡ₚ data_df →
  sample 1%nat (sample 0%nat data_df) ≡ₚ sample 0%nat data_df →
  r ∈ data_df →
  let train_df := snd (coverage_rows sample data_df) in
  (∃ r', r' ∈ train_df ∧ UserId r' = UserId r)
  ∧ (∃ r', r' ∈ train_df ∧ ItemId r' = ItemId r)
  ∧ (∀ r', r' ∈ train_df → r' ∈ data_df).
Proof.
  intros H0 H1 Hr. unfold coverage_rows, drop_duplicates,
    drop_duplicates_subset. cbn [snd].
  assert (r ∈ sample 0%nat data_df) as Hr0 by (by rewrite H0).
  assert (r ∈ sample 1%nat (sample 0%nat data_df)) as Hr1 by (by rewrite H1).
  split_and!.
  - destruct (first_by_covers UserId r _ Hr0) as (y & Hy & Hfy).
    destruct (first_by_covers (λ r : row, r) y
                (first_by UserId (sample 0%nat data_df)
                 ++ first_by ItemId (sample 1%nat (sample 0%nat data_df))))
      as (z & Hz & ->); [apply elem_of_app; by left|]. by exists y.
  - destruct (first_by_covers ItemId r _ Hr1) as (y & Hy & Hfy).
    destruct (first_by_covers (λ r : row, r) y
                (first_by UserId (sample 0%nat data_df)
                 ++ first_by ItemId (sample 1%nat (sample 0%nat data_df))))
      as (z & Hz & ->); [apply elem_of_app; by right|]. by exists y.
  - intros r' Hr'. apply elem_of_first_by_sub, elem_of_app in Hr'.
    destruct Hr' as [Hr'|Hr']; apply elem_of_first_by_sub in Hr'.
    + by rewrite <- H0.
    + by rewrite <- H0, <- H1.
Qed.

Lemma Fraction_of_frames (data_df train_df : DataFrame) :
  Fraction (PyFrame data_df) (PyFrame train_df) = Raise TypeError.
Proof. done. Qed.

Lemma train_test_split_raises (sample : nat → DataFrame → DataFrame)
    (data_df : DataFrame) :
  train_test_split sample data_df = Raise TypeError.
Proof. done. Qed.

(** C1 (the code departs from the claim). The splitter returns no train
    and test set at all: for every interaction table and every outcome of
    the shuffles the call raises [TypeError], at the one-row table
    [(0, 0, 1)] as everywhere else. *)
Theorem train_test_split_returns_nothing :
  train_test_split (λ _ df, df) [{| UserId := 0; ItemId := 0; Count := 1 |}]
  = Raise TypeError
  ∧ ∀ (sample : nat → DataFrame → DataFrame) (data_df : DataFrame),
      train_test_split sample data_df = Raise TypeError.
Proof. split; [done|]. apply train_test_split_raises. Qed.

(** C2 (the code departs from the claim). On the ten-row table of two
    users and five items the coverage-based train set has six rows, so the
    claimed fraction is 0.6 and the claimed top-up two rows (what
    [extra_df] yields for the fraction 0.6); the code hands
    the two DataFrames themselves to [Fraction], in the order full table,
    train set, which raises [TypeError] (on the two lengths in that order
    the ratio would be 10/6, not below 0.80). *)
Theorem train_fraction_not_computed :
  length (fst (coverage_rows (λ _ df, df) two_by_five)) = 10%nat
  ∧ length (snd (coverage_rows (λ _ df, df) two_by_five)) = 6%nat
  ∧ (let '(data_df, train_df) := coverage_rows (λ _ df, df) two_by_five in
     length (extra_df (λ _ df, df) (round_2 (6 # 10)) data_df train_df) = 2%nat)
  ∧ train_test_split (λ _ df, df) two_by_five = Raise TypeError
  ∧ (∀ data_df train_df,
       Fraction (PyFrame data_df) (PyFrame train_df) = Raise TypeError)
  ∧ Fraction (PyInt 10) (PyInt 6) = Ok (10 # 6)%Q
  ∧ Qlt_bool (round_2 (10 # 6)) float_0_80 = false.
Proof. split_and!; try done; by vm_compute. Qed.

(** ** Evaluator *)

Lemma np_mean_mappings (samples : list (dict string Q)) :
  np_mean (Mapping <$> samples)
  = match samples with [] => Ok nan | _ :: _ => Raise TypeError end.
Proof. by destruct samples. Qed.

Lemma recall_body_eq (m : Z) (test_df : DataFrame) (recommender : HPF)
    (recall : list (dict string Q)) (i : Z) :
  recall_body m test_df recommender recall i
  = Ok (if decide (items_of test_df i ≠ [])
        then recall ++ [recall_sample m test_df recommender i] else recall).
Proof.
  unfold recall_body, recall_sample, truediv.
  destruct (items_of test_df i) as [|item x] eqn:Hx; [done|].
  rewrite decide_False by (simpl; lia). rewrite decide_True; done.
Qed.

Lemma precision_body_eq (m : Z) (test_df : DataFrame) (recommender : HPF)
    (precision : list (dict string Q)) (i : Z) :
  precision_body m test_df recommender precision i
  = Ok (if decide (topN recommender i m ≠ [])
        then precision ++ [precision_sample m test_df recommender i]
        else precision).
Proof.
  unfold precision_body, precision_sample, truediv.
  destruct (topN recommender i m) as [|item x] eqn:Hx; [done|].
  rewrite decide_False by (simpl; lia). rewrite decide_True; done.
Qed.

(** A loop whose body appends an entry for the users that pass a test. *)
Lemma sample_loop {S} (body : list S → Z → result (list S)) (P : Z → Prop)
    `{∀ i, Decision (P i)} (sample_of : Z → S) (users : list Z) (acc : list S) :
  (∀ acc i, body acc i = Ok (if decide (P i) then acc ++ [sample_of i] else acc)) →
  for_each body users acc = Ok (acc ++ (sample_of <$> filter P users)).
Proof.
  intros Hbody. revert acc.
  induction users as [|i users IH]; intros acc; simpl.
  - by rewrite app_nil_r.
  - rewrite Hbody. simpl. rewrite IH, filter_cons.
    destruct (decide (P i)); [|done]. by rewrite <- app_assoc.
Qed.

Lemma recall_at_m_int (m : Z) (test_df : DataFrame) (recommender : HPF)
    (user_count : Z) :
  recall_at_m m test_df recommender (PyInt user_count)
  = np_mean (Mapping <$> (recall_sample m test_df recommender
                            <$> filter (λ i, items_of test_df i ≠ [])
                                       (user_ids user_count))).
Proof.
  unfold recall_at_m. simpl. fold (user_ids user_count).
  by rewrite (sample_loop _ (λ i, items_of test_df i ≠ [])
                (recall_sample m test_df recommender))
    by apply recall_body_eq.
Qed.

Lemma precision_at_m_int (m : Z) (test_df : DataFrame) (recommender : HPF)
    (user_count : Z) :
  precision_at_m m test_df recommender (PyInt user_count)
  = np_mean (Mapping <$> (precision_sample m test_df recommender
                            <$> filter (λ i, topN recommender i m ≠ [])
                                       (user_ids user_count))).
Proof.
  unfold precision_at_m. simpl. fold (user_ids user_count).
  by rewrite (sample_loop _ (λ i, topN recommender i m ≠ [])
                (precision_sample m test_df recommender))
    by apply precision_body_eq.
Qed.

(** C5. For every user count the entries handed to the mean are those of
    the users with a non-zero denominator, in order: a user with no row in
    the test table has no recall entry, a user with no recommendation has
    no precision entry, and neither call ends in [ZeroDivisionError]. *)
Theorem zero_denominator_users_omitted (m : Z) (test_df : DataFrame)
    (recommender : HPF) (user_count : Z) :
  for_each (recall_body m test_df recommender) (user_ids user_count) []
  = Ok (recall_sample m test_df recommender
          <$> filter (λ i, items_of test_df i ≠ []) (user_ids user_count))
  ∧ for_each (precision_body m test_df recommender) (user_ids user_count) []
    = Ok (precision_sample m test_df recommender
            <$> filter (λ i, topN recommender i m ≠ []) (user_ids user_count))
  ∧ recall_at_m m test_df recommender (PyInt user_count)
    = np_mean (Mapping <$> (recall_sample m test_df recommender
                              <$> filter (λ i, items_of test_df i ≠ [])
                                         (user_ids user_count)))
  ∧ precision_at_m m test_df recommender (PyInt user_count)
    = np_mean (Mapping <$> (precision_sample m test_df recommender
                              <$> filter (λ i, topN recommender i m ≠ [])
                                         (user_ids user_count)))
  ∧ recall_at_m m test_df recommender (PyInt user_count)
    ≠ Raise ZeroDivisionError
  ∧ precision_at_m m test_df recommender (PyInt user_count)
    ≠ Raise ZeroDivisionError.
Proof.
  split_and!.
  - by rewrite (sample_loop _ (λ i, items_of test_df i ≠ [])
                  (recall_sample m test_df recommender))
      by apply recall_body_eq.
  - by rewrite (sample_loop _ (λ i, topN recommender i m ≠ [])
                  (precision_sample m test_df recommender))
      by apply precision_body_eq.
  - apply recall_at_m_int.
  - apply precision_at_m_int.
  - rewrite recall_at_m_int, np_mean_mappings.
    by destruct (recall_sample _ _ _ <$> _).
  - rewrite precision_at_m_int, np_mean_mappings.
    by destruct (precision_sample _ _ _ <$> _).
Qed.

(** C3 (the code departs from the claim). With one user whose only test
    item is the one recommended, the per-user recall and precision are 1,
    yet both calls raise [TypeError]: the mean is taken over the list of
    dictionaries. For every integer user count the result is [nan] when
    every user is skipped and [TypeError] otherwise, never a mean; and
    [precision_recall_at_m], which passes the unbound [size] method as the
    user count, raises [TypeError] on every input. *)
Theorem evaluator_mean_raises :
  let test_df := [{| UserId := 0; ItemId := 0; Count := 1 |}] in
  dict_get (recall_sample 1 test_df always_item_0 0) "recall" = Some (1 # 1)%Q
  ∧ dict_get (precision_sample 1 test_df always_item_0 0) "precision"
    = Some (1 # 1)%Q
  ∧ recall_at_m 1 test_df always_item_0 (PyInt 1) = Raise TypeError
  ∧ precision_at_m 1 test_df always_item_0 (PyInt 1) = Raise TypeError
  ∧ (∀ m test_df recommender user_count,
       recall_at_m m test_df recommender (PyInt user_count)
       = match filter (λ i, items_of test_df i ≠ []) (user_ids user_count) with
         | [] => Ok nan
         | _ :: _ => Raise TypeError
         end)
  ∧ (∀ m test_df recommender user_count,
       precision_at_m m test_df recommender (PyInt user_count)
       = match filter (λ i, topN recommender i m ≠ []) (user_ids user_count) with
         | [] => Ok nan
         | _ :: _ => Raise TypeError
         end)
  ∧ (∀ m test_df recommender user_item_df,
       precision_recall_at_m m test_df recommender user_item_df
       = Raise TypeError).
Proof.
  split_and!; try done.
  - intros m test_df recommender user_count.
    rewrite recall_at_m_int, np_mean_mappings. by destruct (filter _ _).
  - intros m test_df recommender user_count.
    rewrite precision_at_m_int, np_mean_mappings. by destruct (filter _ _).
Qed.

(** ** Artifact publisher *)

Section publisher_facts.
Context {content : Type}.
Variables PACKAGE_TO_ID_MAP MANIFEST_TO_ID_MAP HYPERPARAMETERS_PATH : string.
Implicit Types (s3_client : AmazonS3 content).

Lemma save_dictionaries_present s3_client (package_id_dict manifest_id_dict : content) :
  object_exists s3_client PACKAGE_TO_ID_MAP = true →
  object_exists s3_client MANIFEST_TO_ID_MAP = true →
  save_dictionaries PACKAGE_TO_ID_MAP MANIFEST_TO_ID_MAP
    package_id_dict manifest_id_dict s3_client
  = (Ok (), s3_client).
Proof. intros Hp Hm. unfold save_dictionaries. by rewrite Hp, Hm. Qed.

(** The outcome of [save_dictionaries], case by case. *)
Lemma save_dictionaries_outcome s3_client (package_id_dict manifest_id_dict : content) :
  fst (save_dictionaries PACKAGE_TO_ID_MAP MANIFEST_TO_ID_MAP
         package_id_dict manifest_id_dict s3_client)
  = if object_exists s3_client PACKAGE_TO_ID_MAP
       && object_exists s3_client MANIFEST_TO_ID_MAP
    then Ok ()
    else if negb (accepts s3_client PACKAGE_TO_ID_MAP)
            || accepts s3_client MANIFEST_TO_ID_MAP
         then Raise (Exception "Unable to store data files for scoring")
         else Ok ().
Proof.
  unfold save_dictionaries, write_json_file.
  destruct (object_exists s3_client PACKAGE_TO_ID_MAP
            && object_exists s3_client MANIFEST_TO_ID_MAP); [done|].
  simpl. by destruct (negb _ || _).
Qed.

Lemma save_hyperparams_outcome s3_client (content_json : content) :
  fst (save_hyperparams HYPERPARAMETERS_PATH content_json s3_client)
  = if accepts s3_client HYPERPARAMETERS_PATH then Ok ()
    else Raise (Exception "Unable to store hyperparameters file").
Proof.
  unfold save_hyperparams, write_json_file.
  by destruct (accepts s3_client HYPERPARAMETERS_PATH).
Qed.

(** The client after a call whose two writes are accepted. *)
Lemma save_dictionaries_accepted s3_client (package_id_dict manifest_id_dict : content) :
  accepts s3_client PACKAGE_TO_ID_MAP = true →
  accepts s3_client MANIFEST_TO_ID_MAP = true →
  let after := snd (save_dictionaries PACKAGE_TO_ID_MAP MANIFEST_TO_ID_MAP
                      package_id_dict manifest_id_dict s3_client) in
  object_exists after PACKAGE_TO_ID_MAP = true
  ∧ object_exists after MANIFEST_TO_ID_MAP = true
  ∧ (attempted after = attempted s3_client
     ∨ attempted after
       = attempted s3_client ++ [PACKAGE_TO_ID_MAP; MANIFEST_TO_ID_MAP]).
Proof.
  intros Hp Hm. unfold save_dictionaries.
  destruct (object_exists s3_client PACKAGE_TO_ID_MAP) eqn:Ep;
    destruct (object_exists s3_client MANIFEST_TO_ID_MAP) eqn:Em; simpl;
    [by auto|..];
    unfold write_json_file; simpl; rewrite Hp, Hm; simpl;
    (split_and!; [| |right; by rewrite <- app_assoc]);
    unfold object_exists; simpl; apply bool_decide_eq_true;
    destruct (decide (MANIFEST_TO_ID_MAP = PACKAGE_TO_ID_MAP)) as [->|];
    rewrite ?lookup_insert_eq, ?lookup_insert_ne, ?lookup_insert_eq by done;
    done.
Qed.
End publisher_facts.

(** C4 (the code departs from the claim). On an empty bucket whose
    backend accepts every write [save_dictionaries] stores both mappings
    and raises "Unable to store data files for scoring"; when the backend
    refuses the manifest map it returns normally. In general it raises
    exactly when a write was attempted and the package-map write was
    refused or the manifest-map write was accepted. [save_hyperparams]
    raises exactly when its write is refused. *)
Theorem save_dictionaries_raises_on_success :
  save_dictionaries package_map_path manifest_map_path 1 2 empty_accepting
  = (Raise (Exception "Unable to store data files for scoring"),
     {| bucket := {[ package_map_path := 1; manifest_map_path := 2 ]};
        accepts := λ _, true;
        attempted := [package_map_path; manifest_map_path] |})
  ∧ fst (save_dictionaries package_map_path manifest_map_path 1 2
           empty_refusing_manifest_map) = Ok ()
  ∧ (∀ (PACKAGE_TO_ID_MAP MANIFEST_TO_ID_MAP : string)
       (package_id_dict manifest_id_dict : Z) (s3_client : AmazonS3 Z),
       fst (save_dictionaries PACKAGE_TO_ID_MAP MANIFEST_TO_ID_MAP
              package_id_dict manifest_id_dict s3_client)
       = if object_exists s3_client PACKAGE_TO_ID_MAP
            && object_exists s3_client MANIFEST_TO_ID_MAP
         then Ok ()
         else if negb (accepts s3_client PACKAGE_TO_ID_MAP)
                 || accepts s3_client MANIFEST_TO_ID_MAP
              then Raise (Exception "Unable to store data files for scoring")
              else Ok ())
  ∧ (∀ (HYPERPARAMETERS_PATH : string) (content_json : Z)
       (s3_client : AmazonS3 Z),
       fst (save_hyperparams HYPERPARAMETERS_PATH content_json s3_client)
       = if accepts s3_client HYPERPARAMETERS_PATH then Ok ()
         else Raise (Exception "Unable to store hyperparameters file")).
Proof.
  split_and!.
  - by vm_compute.
  - by vm_compute.
  - intros. apply save_dictionaries_outcome.
  - intros. apply save_hyperparams_outcome.
Qed.

(** C9, as stated, fails. A bucket that holds a package map but no
    manifest map: [save_dictionaries] writes both keys and the stored
    package map is replaced. And when the backend refuses the manifest map,
    two calls with the same data write the package map twice. *)
Lemma package_map_overwritten :
  let after :=
    snd (save_dictionaries package_map_path manifest_map_path 7 8
           holding_package_map) in
  object_exists holding_package_map package_map_path = true
  ∧ bucket holding_package_map !! package_map_path = Some 1
  ∧ bucket after !! package_map_path = Some 7
  ∧ attempted after = [package_map_path; manifest_map_path]
  ∧ attempted (snd (save_dictionaries_twice package_map_path manifest_map_path
                      7 8 empty_refusing_manifest_map))
    = [package_map_path; manifest_map_path; package_map_path; manifest_map_path]
  ∧ writes_to package_map_path
      (snd (save_dictionaries_twice package_map_path manifest_map_path
              7 8 empty_refusing_manifest_map)) = 2%nat.
Proof. by vm_compute. Qed.

(** C9, amended. When both mappings already exist [save_dictionaries]
    attempts no write and leaves the client as it was; when one of them is
    missing it attempts both writes. When the backend
    accepts the two writes, both mappings exist after the first call, so
    the second call of two with the same data writes nothing: the two
    calls together attempt the mapping writes at most once. *)
Theorem save_dictionaries_first_write_wins {content : Type}
    (PACKAGE_TO_ID_MAP MANIFEST_TO_ID_MAP : string)
    (package_id_dict manifest_id_dict : content)
    (s3_client : AmazonS3 content) :
  (object_exists s3_client PACKAGE_TO_ID_MAP = true →
   object_exists s3_client MANIFEST_TO_ID_MAP = true →
   save_dictionaries PACKAGE_TO_ID_MAP MANIFEST_TO_ID_MAP
     package_id_dict manifest_id_dict s3_client
   = (Ok (), s3_client))
  ∧ (object_exists s3_client PACKAGE_TO_ID_MAP
     && object_exists s3_client MANIFEST_TO_ID_MAP = false →
     attempted (snd (save_dictionaries PACKAGE_TO_ID_MAP MANIFEST_TO_ID_MAP
                       package_id_dict manifest_id_dict s3_client))
     = attempted s3_client ++ [PACKAGE_TO_ID_MAP; MANIFEST_TO_ID_MAP])
  ∧ (accepts s3_client PACKAGE_TO_ID_MAP = true →
     accepts s3_client MANIFEST_TO_ID_MAP = true →
     let after_first :=
       snd (save_dictionaries PACKAGE_TO_ID_MAP MANIFEST_TO_ID_MAP
              package_id_dict manifest_id_dict s3_client) in
     save_dictionaries PACKAGE_TO_ID_MAP MANIFEST_TO_ID_MAP
       package_id_dict manifest_id_dict after_first
     = (Ok (), after_first)
     ∧ snd (save_dictionaries_twice PACKAGE_TO_ID_MAP MANIFEST_TO_ID_MAP
              package_id_dict manifest_id_dict s3_client)
       = after_first
     ∧ (attempted after_first = attempted s3_client
        ∨ attempted after_first
          = attempted s3_client ++ [PACKAGE_TO_ID_MAP; MANIFEST_TO_ID_MAP])).
Proof.
  split; [apply save_dictionaries_present|]. split.
  { intros Hmissing. unfold save_dictionaries, write_json_file.
    rewrite Hmissing. simpl. destruct (negb _ || _); simpl;
      by rewrite <- app_assoc. }
  intros Hp Hm after_first.
  destruct (save_dictionaries_accepted PACKAGE_TO_ID_MAP MANIFEST_TO_ID_MAP
              s3_client package_id_dict manifest_id_dict Hp Hm)
    as (Hep & Hem & Hlog).
  fold after_first in Hep, Hem, Hlog.
  assert (save_dictionaries PACKAGE_TO_ID_MAP MANIFEST_TO_ID_MAP
            package_id_dict manifest_id_dict after_first
          = (Ok (), after_first)) as Hsecond
    by (by apply save_dictionaries_present).
  split_and!; [done| |done].
  unfold save_dictionaries_twice.
  destruct (save_dictionaries _ _ _ _ s3_client) as [first c1] eqn:Hfirst.
  subst after_first. simpl in *. by rewrite Hsecond.
Qed.

Lemma save_dictionaries_first_write_wins_witness :
  save_dictionaries package_map_path manifest_map_path 7 8 holding_both_maps
  = (Ok (), holding_both_maps)
  ∧ snd (save_dictionaries_twice package_map_path manifest_map_path 7 8
           empty_accepting)
    = snd (save_dictionaries package_map_path manifest_map_path 7 8
             empty_accepting).
Proof.
  split.
  - apply (save_dictionaries_first_write_wins package_map_path manifest_map_path
             7 8 holding_both_maps); reflexivity.
  - apply (save_dictionaries_first_write_wins package_map_path manifest_map_path
             7 8 empty_accepting); reflexivity.
Defined.


(** * Further properties of the code *)

(** ** Interaction table builder on arbitrary dictionaries *)

(** The two nested loops are one loop over the (manifest, package) pairs. *)
Lemma make_user_item_df_flat (manifest_dict : dict Z (list Z))
    (package_dict : dict key Z) (user_item_list : list row) :
  for_each
    (λ user_item_list '(k, v),
       let user_id := k in
       for_each
         (λ user_item_list package,
            item_id ← getitem package_dict (KInt package);
            Ok (user_item_list
                  ++ [{| UserId := user_id; ItemId := item_id; Count := 1 |}]))
         v user_item_list)
    manifest_dict user_item_list
  = for_each
      (λ user_item_list '(user_id, package),
         item_id ← getitem package_dict (KInt package);
         Ok (user_item_list
               ++ [{| UserId := user_id; ItemId := item_id; Count := 1 |}]))
      (interactions manifest_dict) user_item_list.
Proof.
  revert user_item_list.
  induction manifest_dict as [|[k v] md IH]; intros acc; [done|].
  unfold interactions. cbn [mbind list_bind]. rewrite for_each_app.
  fold (interactions md). cbn [for_each].
  assert (∀ acc,
    for_each
      (λ user_item_list package,
         item_id ← getitem package_dict (KInt package);
         Ok (user_item_list
               ++ [{| UserId := k; ItemId := item_id; Count := 1 |}]))
      v acc
    = for_each
        (λ user_item_list '(user_id, package),
           item_id ← getitem package_dict (KInt package);
           Ok (user_item_list
                 ++ [{| UserId := user_id; ItemId := item_id; Count := 1 |}]))
        (pair k <$> v) acc) as ->.
  { clear. induction v as [|package v IHv]; intros acc; [done|].
    simpl. destruct (getitem package_dict (KInt package)); simpl; [done|].
    apply IHv. }
  destruct (for_each _ (pair k <$> v) acc) as [e|acc']; simpl; [done|]. apply IH.
Qed.

Lemma interactions_loop_ok (package_dict : dict key Z) (pairs : list (Z * Z))
    (acc : list row) :
  Forall (λ p, is_Some (dict_get package_dict (KInt p.2))) pairs →
  ∃ records,
    for_each
      (λ user_item_list '(user_id, package),
         item_id ← getitem package_dict (KInt package);
         Ok (user_item_list
               ++ [{| UserId := user_id; ItemId := item_id; Count := 1 |}]))
      pairs acc = Ok (acc ++ records)
    ∧ Forall2 (λ r p, UserId r = p.1
                      ∧ dict_get package_dict (KInt p.2) = Some (ItemId r)
                      ∧ Count r = 1) records pairs.
Proof.
  revert acc. induction pairs as [|[k package] pairs IH]; intros acc Hall.
  - exists []. split; [by rewrite app_nil_r | constructor].
  - apply Forall_cons in Hall as [[item Hitem] Hall]. simpl in Hitem.
    destruct (IH (acc ++ [{| UserId := k; ItemId := item; Count := 1 |}]) Hall)
      as (records & Hrun & Hrec).
    exists ({| UserId := k; ItemId := item; Count := 1 |} :: records). split.
    + erewrite for_each_cons_ok;
        [etrans; [exact Hrun|]; by rewrite <- app_assoc|].
      simpl. unfold getitem. by rewrite Hitem.
    + by constructor.
Qed.

Lemma interactions_loop_raise (package_dict : dict key Z)
    (before after : list (Z * Z)) (user_id package : Z) (acc : list row) :
  Forall (λ p, is_Some (dict_get package_dict (KInt p.2))) before →
  dict_get package_dict (KInt package) = None →
  for_each
    (λ user_item_list '(user_id, package),
       item_id ← getitem package_dict (KInt package);
       Ok (user_item_list
             ++ [{| UserId := user_id; ItemId := item_id; Count := 1 |}]))
    (before ++ (user_id, package) :: after) acc
  = Raise (KeyError (KInt package)).
Proof.
  intros Hbefore Hmissing.
  destruct (interactions_loop_ok package_dict before acc Hbefore)
    as (records & Hrun & _).
  rewrite for_each_app, Hrun. simpl. unfold getitem. by rewrite Hmissing.
Qed.

(** X1. [make_user_item_df] on any two dictionaries: when every package of
    every manifest is a key of [package_dict], it returns one record per
    (manifest, package) pair, in order, with the manifest id as user, the
    value stored for the package as item and count 1. *)
Theorem make_user_item_df_records (manifest_dict : dict Z (list Z))
    (package_dict : dict key Z) :
  Forall (λ p, is_Some (dict_get package_dict (KInt p.2)))
         (interactions manifest_dict) →
  ∃ records,
    make_user_item_df manifest_dict package_dict = Ok records
    ∧ length records = length (concat (values manifest_dict))
    ∧ Forall2 (λ r p, UserId r = p.1
                      ∧ dict_get package_dict (KInt p.2) = Some (ItemId r)
                      ∧ Count r = 1)
              records (interactions manifest_dict).
Proof.
  intros Hall. unfold make_user_item_df. rewrite make_user_item_df_flat.
  destruct (interactions_loop_ok package_dict _ [] Hall) as (records & Hrun & Hrec).
  exists records. split_and!; [done| |done].
  rewrite (Forall2_length _ _ _ Hrec). clear.
  induction manifest_dict as [|[k v] md IH]; [done|].
  unfold interactions, values in *. cbn [mbind list_bind fmap list_fmap concat].
  rewrite !length_app, length_fmap. simpl. by rewrite <- IH.
Qed.

Lemma make_user_item_df_records_witness :
  ∃ records,
    make_user_item_df [(0, [5; 7]); (1, [7])] [(KInt 5, 50); (KInt 7, 70)]
    = Ok records
    ∧ length records = 3%nat.
Proof.
  destruct (make_user_item_df_records [(0, [5; 7]); (1, [7])]
              [(KInt 5, 50); (KInt 7, 70)]) as (records & Hrun & Hlen & _).
  - repeat constructor; by eexists.
  - exists records. split; [exact Hrun | exact Hlen].
Defined.

(** X2. [make_user_item_df] stops at the first package that is not a key
    of [package_dict]: it raises [KeyError] for that package and no table
    is returned, whatever follows. *)
Theorem make_user_item_df_first_missing (manifest_dict : dict Z (list Z))
    (package_dict : dict key Z) (before after : list (Z * Z))
    (user_id package : Z) :
  interactions manifest_dict = before ++ (user_id, package) :: after →
  Forall (λ p, is_Some (dict_get package_dict (KInt p.2))) before →
  dict_get package_dict (KInt package) = None →
  make_user_item_df manifest_dict package_dict = Raise (KeyError (KInt package)).
Proof.
  intros Hsplit Hbefore Hmissing. unfold make_user_item_df.
  rewrite make_user_item_df_flat, Hsplit.
  by apply interactions_loop_raise.
Qed.

Lemma make_user_item_df_first_missing_witness :
  make_user_item_df [(0, [5; 7]); (1, [9; 5])] [(KInt 5, 50); (KInt 7, 70)]
  = Raise (KeyError (KInt 9)).
Proof.
  apply (make_user_item_df_first_missing _ _ [(0, 5); (0, 7)] [(1, 5)] 1 9).
  - reflexivity.
  - repeat constructor; by eexists.
  - reflexivity.
Defined.

(** ** Identifier mapper on arbitrary inputs *)

Lemma package_set_loop_raise (package_id_dict : dict key Z)
    (before after : list string) (name : string) (package_set : gset Z) :
  (∀ n, n ∈ before → is_Some (dict_get package_id_dict (KStr n))) →
  dict_get package_id_dict (KStr name) = None →
  for_each (λ package_set each_package,
              id ← getitem package_id_dict (KStr each_package);
              Ok ({[ id ]} ∪ package_set))
           (before ++ name :: after) package_set
  = Raise (KeyError (KStr name)).
Proof.
  intros Hbefore Hmissing.
  destruct (package_set_loop package_id_dict before package_set Hbefore)
    as (s & Hs & _).
  rewrite for_each_app, Hs. simpl. unfold getitem. by rewrite Hmissing.
Qed.

Lemma manifest_loop_raise (package_id_dict : dict key Z)
    (manifest_list : list manifest) (st : Z * dict Z (list Z))
    (before after : list string) (name : string) :
  concat manifest_list = before ++ name :: after →
  (∀ n, n ∈ before → is_Some (dict_get package_id_dict (KStr n))) →
  dict_get package_id_dict (KStr name) = None →
  for_each (manifest_step package_id_dict) manifest_list st
  = Raise (KeyError (KStr name)).
Proof.
  revert st before.
  induction manifest_list as [|manifest ms IH]; intros [count md] before
    Hsplit Hbefore Hmissing.
  - by destruct before.
  - simpl in Hsplit. apply app_eq_app in Hsplit as [l Hcases].
    assert (∀ l', manifest = before ++ name :: l' →
              for_each (manifest_step package_id_dict) (manifest :: ms) (count, md)
              = Raise (KeyError (KStr name))) as Hhere.
    { intros l' ->. apply for_each_cons_raise. unfold manifest_step, package_set_of.
      by rewrite package_set_loop_raise. }
    assert (∀ l', before = manifest ++ l' → concat ms = l' ++ name :: after →
              for_each (manifest_step package_id_dict) (manifest :: ms) (count, md)
              = Raise (KeyError (KStr name))) as Hlater.
    { intros l' -> Hrest.
      destruct (package_set_of_ok package_id_dict manifest) as (s & Hs & _).
      { intros n Hn. apply Hbefore, elem_of_app. by left. }
      erewrite for_each_cons_ok
        by (unfold manifest_step; rewrite Hs; simpl; reflexivity).
      eapply IH; [exact Hrest| |done].
      intros n Hn. apply Hbefore, elem_of_app. by right. }
    destruct Hcases as [[-> Hrest]|[-> Hrest]].
    + destruct l as [|x l].
      * apply (Hlater []); [by rewrite !app_nil_r | by symmetry].
      * simpl in Hrest. injection Hrest as <- _. by apply (Hhere l).
    + by apply (Hlater l).
Qed.

(** X3. [generate_manifest_id_dict] against any package dictionary: the
    first package name, in reading order over the manifests, that is not
    a key of [package_id_dict] ends the call with [KeyError] for that
    name. *)
Theorem generate_manifest_id_dict_first_missing (manifest_list : list manifest)
    (package_id_dict : dict key Z) (before after : list string) (name : string) :
  concat manifest_list = before ++ name :: after →
  (∀ n, n ∈ before → is_Some (dict_get package_id_dict (KStr n))) →
  dict_get package_id_dict (KStr name) = None →
  generate_manifest_id_dict manifest_list package_id_dict
  = Raise (KeyError (KStr name)).
Proof.
  intros Hsplit Hbefore Hmissing. unfold generate_manifest_id_dict.
  by erewrite manifest_loop_raise.
Qed.

Lemma generate_manifest_id_dict_first_missing_witness :
  generate_manifest_id_dict [["a"]; ["b"; "c"]; ["d"]]%string
    (generate_package_id_dict [["a"; "b"]]%string)
  = Raise (KeyError (KStr "c")).
Proof.
  apply (generate_manifest_id_dict_first_missing _ _
           ["a"; "b"]%string ["d"]%string "c"%string).
  - reflexivity.
  - intros n Hn. apply generated_dict_knows. exact Hn.
  - reflexivity.
Defined.

(** X4. Package ids are stable: the dictionary generated from a manifest
    collection is an initial segment of the one generated from any
    extension of the collection, so every name keeps its id when manifests
    are appended. *)
Theorem generate_package_id_dict_stable (manifest_list more : list manifest) :
  (∃ rest,
     generate_package_id_dict (manifest_list ++ more)
     = generate_package_id_dict manifest_list ++ rest)
  ∧ ∀ k id,
      dict_get (generate_package_id_dict manifest_list) k = Some id →
      dict_get (generate_package_id_dict (manifest_list ++ more)) k = Some id.
Proof.
  rewrite !generate_package_id_dict_numbered, concat_app.
  destruct (first_occurrences_prefix (concat manifest_list) (concat more))
    as [rest ->].
  split.
  - unfold numbered. rewrite imap_app. by eexists.
  - intros k id. apply numbered_app_get.
Qed.

Lemma generate_package_id_dict_stable_witness :
  dict_get (generate_package_id_dict
              ([["a"; "b"]]%string ++ [["c"; "a"]]%string))
           (KStr "b") = Some 1.
Proof.
  apply (generate_package_id_dict_stable [["a"; "b"]]%string [["c"; "a"]]%string).
  reflexivity.
Defined.

(** X5. The dictionaries [preprocess_raw_data] returns know exactly the
    package names of the validated manifests that pass the length filter:
    a name that occurs only in discarded manifests gets no id. With limits
    that leave no integer strictly between them both dictionaries are
    empty, whatever the data. *)
Theorem preprocess_raw_data_ids (validate_pypi : manifest → manifest)
    (raw_data_dict : raw_data) (lower_limit upper_limit : Z) :
  ∃ raw_data_dict' package_id_dict manifest_id_dict,
    preprocess_raw_data validate_pypi raw_data_dict lower_limit upper_limit
    = Ok (raw_data_dict', (package_id_dict, manifest_id_dict))
    ∧ (∀ name,
         is_Some (dict_get package_id_dict (KStr name))
         ↔ ∃ manifest,
             manifest ∈ validate_manifest_data validate_pypi
                          (default [] (package_list raw_data_dict))
             ∧ lower_limit < Z.of_nat (length manifest) < upper_limit
             ∧ name ∈ manifest)
    ∧ (upper_limit ≤ lower_limit + 1 →
       package_id_dict = [] ∧ manifest_id_dict = []).
Proof.
  destruct (preprocess_raw_data_ok validate_pypi raw_data_dict
              lower_limit upper_limit) as (md & Hrun & Hmd & Hkeys).
  eexists _, _, md. split; [exact Hrun|]. rewrite validate_manifest_data_map.
  split.
  - intros name. rewrite generated_dict_knows, elem_of_concat. split.
    + intros (manifest & Hm & Hname).
      apply elem_of_trim_manifest_list in Hm as [Hm Hlen]. by exists manifest.
    + intros (manifest & Hm & Hlen & Hname). exists manifest. split; [|done].
      by apply elem_of_trim_manifest_list.
  - intros Hlimits.
    assert (trim_manifest_list lower_limit upper_limit
              (validate_pypi <$> default [] (package_list raw_data_dict)) = [])
      as Hempty.
    { destruct (trim_manifest_list _ _ _) as [|manifest l] eqn:Htrim; [done|].
      assert (manifest ∈ manifest :: l) as Hin by left.
      rewrite <- Htrim in Hin.
      apply elem_of_trim_manifest_list in Hin as [_ Hlen]. lia. }
    rewrite Hempty in Hkeys |- *. split; [done|].
    by destruct md.
Qed.

(** ** The pieces of the splitter *)

Lemma length_first_by {A B} `{EqDecision B} (f : A → B) (l : list A) :
  (length (first_by f l) ≤ length l)%nat.
Proof.
  induction l as [|x l IH]; simpl; [done|].
  pose proof (List.filter_length_le
                (λ y, bool_decide (f y ≠ f x)) (first_by f l)). lia.
Qed.

Lemma NoDup_first_by_self {A} `{EqDecision A} (l : list A) :
  NoDup (first_by (λ x : A, x) l).
Proof.
  pose proof (NoDup_first_by (λ x : A, x) l) as H.
  by rewrite list_fmap_id in H.
Qed.

(** [first_by f] keeps one element for every value of [f]. *)
Lemma length_first_by_distinct {A B} `{EqDecision B} (f : A → B) (l : list A) :
  length (first_by f l) = length (remove_dups (f <$> l)).
Proof.
  rewrite <- (length_fmap f). apply Permutation_length, NoDup_Permutation.
  - apply NoDup_first_by.
  - apply NoDup_remove_dups.
  - intros b. rewrite elem_of_remove_dups, !list_elem_of_fmap. split.
    + intros (x & -> & Hx). exists x. split; [done|].
      by eapply elem_of_first_by_sub.
    + intros (x & -> & Hx).
      destruct (first_by_covers f x l Hx) as (y & Hy & Hfy). by exists y.
Qed.

Lemma length_distinct_perm {A B} `{EqDecision B} (f : A → B) (l l' : list A) :
  l ≡ₚ l' → length (remove_dups (f <$> l)) = length (remove_dups (f <$> l')).
Proof.
  intros Hperm. apply Permutation_length, NoDup_Permutation;
    [apply NoDup_remove_dups..|].
  intros b. by rewrite !elem_of_remove_dups, Hperm.
Qed.

(** X6. Lines 172-176 of [train_test_split]: when the two shuffles return
    permutations, the coverage train set has no duplicate row, holds only
    rows of the table, holds a row of every user and a row of every item
    of the table, and has at most as many rows as there are distinct users
    plus distinct items. *)
Theorem coverage_rows_train (sample : nat → DataFrame → DataFrame)
    (data_df : DataFrame) :
  sample 0%nat data_df ≡ₚ data_df →
  sample 1%nat (sample 0%nat data_df) ≡ₚ sample 0%nat data_df →
  let shuffled := fst (coverage_rows sample data_df) in
  let train_df := snd (coverage_rows sample data_df) in
  shuffled ≡ₚ data_df
  ∧ NoDup train_df
  ∧ (∀ r, r ∈ train_df → r ∈ data_df)
  ∧ (∀ r, r ∈ data_df →
       (∃ r', r' ∈ train_df ∧ UserId r' = UserId r)
       ∧ (∃ r', r' ∈ train_df ∧ ItemId r' = ItemId r))
  ∧ (length train_df
     ≤ length (remove_dups (UserId <$> data_df))
       + length (remove_dups (ItemId <$> data_df)))%nat.
Proof.
  intros H0 H1 shuffled train_df. split_and!.
  - subst shuffled. unfold coverage_rows. cbn [fst]. by rewrite H1.
  - apply NoDup_first_by_self.
  - intros r Hr. subst train_df. unfold coverage_rows, drop_duplicates,
      drop_duplicates_subset in Hr. cbn [snd] in Hr.
    apply elem_of_first_by_sub, elem_of_app in Hr.
    destruct Hr as [Hr|Hr]; apply elem_of_first_by_sub in Hr.
    + by rewrite <- H0.
    + by rewrite <- H0, <- H1.
  - intros r Hr.
    destruct (coverage_rows_cover sample data_df r H0 H1 Hr) as (Hu & Hi & _).
    done.
  - subst train_df. unfold coverage_rows, drop_duplicates,
      drop_duplicates_subset. cbn [snd].
    etrans; [apply length_first_by|]. rewrite length_app.
    rewrite !length_first_by_distinct.
    rewrite (length_distinct_perm UserId _ _ H0).
    rewrite (length_distinct_perm ItemId _ (sample 0%nat data_df) H1).
    by rewrite (length_distinct_perm ItemId _ _ H0).
Qed.

Lemma coverage_rows_train_witness :
  NoDup (snd (coverage_rows (λ _ df, df) two_by_five))
  ∧ (length (snd (coverage_rows (λ _ df, df) two_by_five)) ≤ 7)%nat.
Proof.
  destruct (coverage_rows_train (λ _ df, df) two_by_five) as (_ & Hnd & _ & _ & Hlen);
    [reflexivity..|].
  split; [exact Hnd | exact Hlen].
Defined.









(** ** The per-user metrics *)

Lemma length_intersect1d_distinct (ar1 ar2 : list Z) :
  length (intersect1d ar1 ar2)
  = length (remove_dups (List.filter (λ a, bool_decide (a ∈ ar2)) ar1)).
Proof. unfold intersect1d. by rewrite merge_sort_Permutation. Qed.

Lemma length_intersect1d_le_l (ar1 ar2 : list Z) :
  (length (intersect1d ar1 ar2) ≤ length ar1)%nat.
Proof.
  rewrite length_intersect1d_distinct.
  etrans; [|apply (List.filter_length_le (λ a, bool_decide (a ∈ ar2)))].
  apply submseteq_length, NoDup_submseteq; [apply NoDup_remove_dups|].
  intros a. by rewrite elem_of_remove_dups.
Qed.

Lemma length_intersect1d_le_r (ar1 ar2 : list Z) :
  (length (intersect1d ar1 ar2) ≤ length ar2)%nat.
Proof.
  rewrite length_intersect1d_distinct.
  apply submseteq_length, NoDup_submseteq; [apply NoDup_remove_dups|].
  intros a. rewrite elem_of_remove_dups, list_elem_of_In, List.filter_In.
  intros [_ Ha]. by apply bool_decide_eq_true in Ha.
Qed.

(** Every value of the first array is in the second, and no value occurs
    twice: the intersection has them all. *)
Lemma length_intersect1d_all (ar1 ar2 : list Z) :
  NoDup ar1 → (∀ a, a ∈ ar1 → a ∈ ar2) →
  length (intersect1d ar1 ar2) = length ar1.
Proof.
  intros Hnd Hsub. rewrite length_intersect1d_distinct.
  apply Permutation_length, NoDup_Permutation; [apply NoDup_remove_dups|done|].
  intros a. rewrite elem_of_remove_dups, list_elem_of_In, List.filter_In,
    <- list_elem_of_In, bool_decide_eq_true. split; [tauto|]. auto.
Qed.

Lemma ratio_in_unit_interval (a b : Z) :
  0 ≤ a ≤ b → 0 < b → (0 <= inject_Z a / inject_Z b <= 1)%Q.
Proof.
  intros Ha Hb. destruct b as [|p|p]; try lia.
  unfold Qle, Qdiv, Qmult, Qinv, inject_Z. simpl. split; lia.
Qed.

Lemma ratio_one (b : Z) : 0 < b → (inject_Z b / inject_Z b == 1)%Q.
Proof.
  intros Hb. destruct b as [|p|p]; try lia.
  unfold Qeq, Qdiv, Qmult, Qinv, inject_Z. simpl. lia.
Qed.

Lemma recall_sample_bounded (m : Z) (test_df : DataFrame) (recommender : HPF)
    (i : Z) :
  items_of test_df i ≠ [] →
  ∃ q, dict_get (recall_sample m test_df recommender i) "recall"%string = Some q
       ∧ (0 <= q <= 1)%Q.
Proof.
  intros Hne. eexists. split; [reflexivity|]. apply ratio_in_unit_interval.
  - pose proof (length_intersect1d_le_l (items_of test_df i)
                  (topN recommender i m)). lia.
  - destruct (items_of test_df i); [done | simpl; lia].
Qed.

Lemma precision_sample_bounded (m : Z) (test_df : DataFrame)
    (recommender : HPF) (i : Z) :
  topN recommender i m ≠ [] →
  ∃ q, dict_get (precision_sample m test_df recommender i) "precision"%string
       = Some q
       ∧ (0 <= q <= 1)%Q.
Proof.
  intros Hne. eexists. split; [reflexivity|]. apply ratio_in_unit_interval.
  - pose proof (length_intersect1d_le_r (items_of test_df i)
                  (topN recommender i m)). lia.
  - destruct (topN recommender i m); [done | simpl; lia].
Qed.

(** X8. Whatever the test table, the model and the user count, the two
    loops end normally and every entry they collect carries a metric
    between 0 and 1: the number of distinct hits never exceeds the number
    of test rows of the user, nor the number of recommendations. *)
Theorem metric_samples_bounded (m : Z) (test_df : DataFrame)
    (recommender : HPF) (user_count : Z) :
  ∃ recall precision,
    for_each (recall_body m test_df recommender) (user_ids user_count) []
    = Ok recall
    ∧ for_each (precision_body m test_df recommender) (user_ids user_count) []
      = Ok precision
    ∧ Forall (λ d, ∃ q, dict_get d "recall"%string = Some q ∧ (0 <= q <= 1)%Q)
             recall
    ∧ Forall (λ d, ∃ q, dict_get d "precision"%string = Some q
                        ∧ (0 <= q <= 1)%Q)
             precision.
Proof.
  eexists _, _. split_and!.
  - by rewrite (sample_loop _ (λ i, items_of test_df i ≠ [])
                  (recall_sample m test_df recommender))
      by apply recall_body_eq.
  - by rewrite (sample_loop _ (λ i, topN recommender i m ≠ [])
                  (precision_sample m test_df recommender))
      by apply precision_body_eq.
  - simpl. apply Forall_fmap, Forall_forall. intros i Hi.
    apply list_elem_of_filter in Hi as [Hne _]. by apply recall_sample_bounded.
  - simpl. apply Forall_fmap, Forall_forall. intros i Hi.
    apply list_elem_of_filter in Hi as [Hne _]. by apply precision_sample_bounded.
Qed.

(** X9. A user whose recommendations are exactly the user's test items,
    none of them repeated: the loops append for this user a recall entry
    and a precision entry whose metric equals 1. *)
Theorem exact_recommendations_score_one (m : Z) (test_df : DataFrame)
    (recommender : HPF) (i : Z) :
  items_of test_df i ≠ [] →
  NoDup (items_of test_df i) →
  topN recommender i m ≡ₚ items_of test_df i →
  ∃ r p : Q,
    recall_body m test_df recommender [] i
    = Ok [[("recall"%string, r);
           ("length"%string, inject_Z (Z.of_nat (length (items_of test_df i))));
           ("user"%string, inject_Z i)]]
    ∧ precision_body m test_df recommender [] i
      = Ok [[("precision"%string, p);
             ("length"%string,
              inject_Z (Z.of_nat (length (topN recommender i m))));
             ("user"%string, inject_Z i)]]
    ∧ (r == 1)%Q ∧ (p == 1)%Q.
Proof.
  intros Hne Hnd Hperm.
  assert (topN recommender i m ≠ []) as Hne'.
  { intros Hnil. rewrite Hnil in Hperm. by apply Permutation_nil_l in Hperm. }
  assert (length (intersect1d (items_of test_df i) (topN recommender i m))
          = length (items_of test_df i)) as Hall.
  { apply length_intersect1d_all; [done|]. intros a. by rewrite Hperm. }
  eexists _, _. split_and!.
  - rewrite recall_body_eq, decide_True by done. reflexivity.
  - rewrite precision_body_eq, decide_True by done. reflexivity.
  - rewrite Hall. apply ratio_one.
    destruct (items_of test_df i); [done | simpl; lia].
  - rewrite Hall, (Permutation_length Hperm). apply ratio_one.
    destruct (items_of test_df i); [done | simpl; lia].
Qed.

Lemma exact_recommendations_score_one_witness :
  ∃ r p : Q,
    recall_body 1 [{| UserId := 0; ItemId := 0; Count := 1 |}] always_item_0 [] 0
    = Ok [[("recall"%string, r); ("length"%string, inject_Z 1);
           ("user"%string, inject_Z 0)]]
    ∧ precision_body 1 [{| UserId := 0; ItemId := 0; Count := 1 |}]
        always_item_0 [] 0
      = Ok [[("precision"%string, p); ("length"%string, inject_Z 1);
             ("user"%string, inject_Z 0)]]
    ∧ (r == 1)%Q ∧ (p == 1)%Q.
Proof.
  apply (exact_recommendations_score_one 1
           [{| UserId := 0; ItemId := 0; Count := 1 |}] always_item_0 0).
  - by vm_compute.
  - vm_compute. apply NoDup_singleton.
  - reflexivity.
Defined.

(** ** The whole publication *)

Section publication_facts.
Variables HPF_MODEL_PATH PACKAGE_TO_ID_MAP MANIFEST_TO_ID_MAP
  HYPERPARAMETERS_PATH : string.
Variable pickle_failure : string → option exn.

(** [save_model] always returns; it adds one write attempt, for the model
    path, and touches no other key. *)
Lemma save_model_effect (recommender : HPF) (s3_client : AmazonS3 artifact) :
  ∃ after,
    save_model HPF_MODEL_PATH pickle_failure recommender s3_client = (Ok (), after)
    ∧ attempted after = attempted s3_client ++ [HPF_MODEL_PATH]
    ∧ accepts after = accepts s3_client
    ∧ (∀ k, k ≠ HPF_MODEL_PATH → bucket after !! k = bucket s3_client !! k)
    ∧ (∀ k, is_Some (bucket s3_client !! k) → is_Some (bucket after !! k)).
Proof.
  unfold save_model, write_pickle_file, write_json_file.
  destruct (pickle_failure HPF_MODEL_PATH) as [exc|]; simpl.
  - eexists. split_and!; done.
  - eexists. split_and!; try done; simpl;
      destruct (accepts s3_client HPF_MODEL_PATH); try done.
    + intros k Hk. by rewrite lookup_insert_ne.
    + intros k Hk. destruct (decide (HPF_MODEL_PATH = k)) as [->|];
        [rewrite lookup_insert_eq; by eexists | by rewrite lookup_insert_ne].
Qed.

Lemma object_exists_lookup {content} (s3_client after : AmazonS3 content)
    (k : string) :
  bucket after !! k = bucket s3_client !! k →
  object_exists after k = object_exists s3_client k.
Proof. unfold object_exists. by intros ->. Qed.
End publication_facts.

(** X10. A publication on a bucket that lacks a mapping, with a backend
    that accepts both mapping writes (the model path being a path of its
    own): [save_obj] attempts the model and the two mapping writes, in
    this order, the two mappings exist afterwards, the call ends with
    "Unable to store data files for scoring", and no write of the
    hyperparameters is attempted. This holds whether the model write
    succeeded, was refused or raised. *)
Theorem save_obj_first_publication
    (HPF_MODEL_PATH PACKAGE_TO_ID_MAP MANIFEST_TO_ID_MAP
       HYPERPARAMETERS_PATH : string)
    (pickle_failure : string → option exn)
    (trained_recommender : HPF) (precision_30 recall_30 : float64)
    (package_id_dict manifest_id_dict : artifact)
    (precision_50 recall_50 : float64) (lower_lim upper_lim latent_factor : Z)
    (s3_client : AmazonS3 artifact) :
  HPF_MODEL_PATH ≠ PACKAGE_TO_ID_MAP →
  HPF_MODEL_PATH ≠ MANIFEST_TO_ID_MAP →
  object_exists s3_client PACKAGE_TO_ID_MAP
  && object_exists s3_client MANIFEST_TO_ID_MAP = false →
  accepts s3_client PACKAGE_TO_ID_MAP = true →
  accepts s3_client MANIFEST_TO_ID_MAP = true →
  ∃ after,
    save_obj HPF_MODEL_PATH PACKAGE_TO_ID_MAP MANIFEST_TO_ID_MAP
      HYPERPARAMETERS_PATH pickle_failure trained_recommender
      precision_30 recall_30 package_id_dict manifest_id_dict
      precision_50 recall_50 lower_lim upper_lim latent_factor s3_client
    = (Raise (Exception "Unable to store data files for scoring"), after)
    ∧ attempted after
      = attempted s3_client
        ++ [HPF_MODEL_PATH; PACKAGE_TO_ID_MAP; MANIFEST_TO_ID_MAP]
    ∧ object_exists after PACKAGE_TO_ID_MAP = true
    ∧ object_exists after MANIFEST_TO_ID_MAP = true.
Proof.
  intros Hmp Hmm Hmissing Hap Ham.
  destruct (save_model_effect HPF_MODEL_PATH pickle_failure trained_recommender
              s3_client) as (c1 & Hmodel & Hlog & Hacc & Hkeep & _).
  assert (object_exists c1 PACKAGE_TO_ID_MAP
          && object_exists c1 MANIFEST_TO_ID_MAP = false) as Hmissing1.
  { rewrite !(object_exists_lookup s3_client c1) by (apply Hkeep; done). done. }
  destruct (save_dictionaries_accepted PACKAGE_TO_ID_MAP MANIFEST_TO_ID_MAP c1
              package_id_dict manifest_id_dict) as (Hep & Hem & _);
    [by rewrite Hacc..|].
  pose proof (save_dictionaries_outcome PACKAGE_TO_ID_MAP MANIFEST_TO_ID_MAP c1
                package_id_dict manifest_id_dict) as Hout.
  rewrite Hmissing1, Hacc, Hap, Ham in Hout. simpl in Hout.
  assert (attempted (snd (save_dictionaries PACKAGE_TO_ID_MAP MANIFEST_TO_ID_MAP
                            package_id_dict manifest_id_dict c1))
          = attempted c1 ++ [PACKAGE_TO_ID_MAP; MANIFEST_TO_ID_MAP]) as Hlog2.
  { unfold save_dictionaries, write_json_file. rewrite Hmissing1. simpl.
    destruct (negb _ || _); simpl; by rewrite <- app_assoc. }
  unfold save_obj, and_then at 1. rewrite Hmodel. unfold and_then at 1.
  destruct (save_dictionaries _ _ _ _ c1) as [outcome c2]. simpl in *.
  subst outcome. exists c2. split_and!; [done| |done..].
  by rewrite Hlog2, Hlog, <- app_assoc.
Qed.

Lemma save_obj_first_publication_witness :
  ∃ after,
    save_obj "model.pkl" package_map_path manifest_map_path "hyperparameters.json"
      (λ _, Some ValueError) always_item_0 nan nan
      (FormattedPackages "pypi" []) (FormattedManifests "pypi" [])
      nan nan 13 15 300
      {| bucket := ∅; accepts := λ _, true; attempted := [] |}
    = (Raise (Exception "Unable to store data files for scoring"), after)
    ∧ attempted after = ["model.pkl"; package_map_path; manifest_map_path]%string.
Proof.
  destruct (save_obj_first_publication
              "model.pkl" package_map_path manifest_map_path "hyperparameters.json"
              (λ _, Some ValueError) always_item_0 nan nan
              (FormattedPackages "pypi" []) (FormattedManifests "pypi" [])
              nan nan 13 15 300
              {| bucket := ∅; accepts := λ _, true; attempted := [] |})
    as (after & Hrun & Hlog & _); [done..|].
  exists after. split; [exact Hrun | exact Hlog].
Defined.

(** X11. A publication on a bucket that holds both mappings: [save_obj]
    attempts the model write and the hyperparameters write and nothing
    else, it raises exactly when the hyperparameters write is refused, a
    model write that fails or raises does not stop it, and every stored
    object other than the model and the hyperparameters is left as it
    was. *)
Theorem save_obj_mappings_present
    (HPF_MODEL_PATH PACKAGE_TO_ID_MAP MANIFEST_TO_ID_MAP
       HYPERPARAMETERS_PATH : string)
    (pickle_failure : string → option exn)
    (trained_recommender : HPF) (precision_30 recall_30 : float64)
    (package_id_dict manifest_id_dict : artifact)
    (precision_50 recall_50 : float64) (lower_lim upper_lim latent_factor : Z)
    (s3_client : AmazonS3 artifact) :
  object_exists s3_client PACKAGE_TO_ID_MAP = true →
  object_exists s3_client MANIFEST_TO_ID_MAP = true →
  ∃ after,
    save_obj HPF_MODEL_PATH PACKAGE_TO_ID_MAP MANIFEST_TO_ID_MAP
      HYPERPARAMETERS_PATH pickle_failure trained_recommender
      precision_30 recall_30 package_id_dict manifest_id_dict
      precision_50 recall_50 lower_lim upper_lim latent_factor s3_client
    = (if accepts s3_client HYPERPARAMETERS_PATH then Ok ()
       else Raise (Exception "Unable to store hyperparameters file"),
       after)
    ∧ attempted after
      = attempted s3_client ++ [HPF_MODEL_PATH; HYPERPARAMETERS_PATH]
    ∧ ∀ k, k ≠ HPF_MODEL_PATH → k ≠ HYPERPARAMETERS_PATH →
           bucket after !! k = bucket s3_client !! k.
Proof.
  intros Hp Hm.
  destruct (save_model_effect HPF_MODEL_PATH pickle_failure trained_recommender
              s3_client) as (c1 & Hmodel & Hlog & Hacc & Hkeep & Hsome).
  assert (object_exists c1 PACKAGE_TO_ID_MAP = true) as Hp1.
  { unfold object_exists in *. apply bool_decide_eq_true, Hsome.
    by apply bool_decide_eq_true in Hp. }
  assert (object_exists c1 MANIFEST_TO_ID_MAP = true) as Hm1.
  { unfold object_exists in *. apply bool_decide_eq_true, Hsome.
    by apply bool_decide_eq_true in Hm. }
  unfold save_obj, and_then at 1. rewrite Hmodel. unfold and_then.
  rewrite (save_dictionaries_present PACKAGE_TO_ID_MAP MANIFEST_TO_ID_MAP c1)
    by done.
  unfold save_hyperparams, write_json_file. rewrite Hacc.
  destruct (accepts s3_client HYPERPARAMETERS_PATH); simpl;
    eexists; (split_and!; [done| |]); simpl.
  - by rewrite Hlog, <- app_assoc.
  - intros k Hk1 Hk2. rewrite lookup_insert_ne by done. by apply Hkeep.
  - by rewrite Hlog, <- app_assoc.
  - intros k Hk1 Hk2. by apply Hkeep.
Qed.

Lemma save_obj_mappings_present_witness :
  ∃ after,
    save_obj "model.pkl" package_map_path manifest_map_path "hyperparameters.json"
      (λ _, Some ValueError) always_item_0 nan nan
      (FormattedPackages "pypi" []) (FormattedManifests "pypi" [])
      nan nan 13 15 300
      {| bucket := {[ package_map_path := FormattedPackages "old" [];
                      manifest_map_path := FormattedManifests "old" [] ]};
         accepts := λ _, true; attempted := [] |}
    = (Ok (), after)
    ∧ attempted after = ["model.pkl"; "hyperparameters.json"]%string.
Proof.
  destruct (save_obj_mappings_present
              "model.pkl" package_map_path manifest_map_path "hyperparameters.json"
              (λ _, Some ValueError) always_item_0 nan nan
              (FormattedPackages "pypi" []) (FormattedManifests "pypi" [])
              nan nan 13 15 300
              {| bucket := {[ package_map_path := FormattedPackages "old" [];
                              manifest_map_path := FormattedManifests "old" [] ]};
                 accepts := λ _, true; attempted := [] |})
    as (after & Hrun & Hlog & _); [done..|].
  exists after. split; [exact Hrun | exact Hlog].
Defined.

(** ** Deployment proposal *)

Lemma ascii_compare_refl (c : Ascii.ascii) : Ascii.compare c c = Eq.
Proof. unfold Ascii.compare. apply N.compare_refl. Qed.

Lemma ascii_compare_lt_trans (a b c : Ascii.ascii) :
  Ascii.compare a b = Lt → Ascii.compare b c = Lt → Ascii.compare a c = Lt.
Proof. unfold Ascii.compare. rewrite !N.compare_lt_iff. lia. Qed.

Lemma string_compare_le_trans (a b c : string) :
  String.compare a b ≠ Gt → String.compare b c ≠ Gt → String.compare a c ≠ Gt.
Proof.
  revert b c. induction a as [|x a IH]; intros [|y b] [|z c]; simpl; try done.
  destruct (Ascii.compare x y) eqn:Exy; [|
    |done]; destruct (Ascii.compare y z) eqn:Eyz; try done.
  - apply Ascii.compare_eq_iff in Exy as ->. apply Ascii.compare_eq_iff in Eyz as ->.
    rewrite ascii_compare_refl. apply IH.
  - apply Ascii.compare_eq_iff in Exy as ->. by rewrite Eyz.
  - apply Ascii.compare_eq_iff in Eyz as <-. by rewrite Exy.
  - by rewrite (ascii_compare_lt_trans x y z).
Qed.

Lemma string_leb_spec (a b : string) :
  String.leb a b = true ↔ String.compare a b ≠ Gt.
Proof. unfold String.leb. by destruct (String.compare a b). Qed.

Lemma string_leb_refl (a : string) : String.leb a a = true.
Proof. destruct (String.leb_total a a); done. Qed.

Lemma string_leb_trans (a b c : string) :
  String.leb a b = true → String.leb b c = true → String.leb a c = true.
Proof. rewrite !string_leb_spec. apply string_compare_le_trans. Qed.

Lemma string_ltb_false_leb (a b : string) :
  String.ltb a b = false → String.leb b a = true.
Proof.
  unfold String.ltb, String.leb. rewrite (String.compare_antisym b a).
  by destruct (String.compare a b).
Qed.

Lemma string_ltb_leb (a b : string) : String.ltb a b = true → String.leb a b = true.
Proof. unfold String.ltb, String.leb. by destruct (String.compare a b). Qed.

(** The running maximum is an element seen so far and bounds them all. *)
Lemma max_loop (l : list string) (x : string) :
  let v := fold_left (λ best y, if String.ltb best y then y else best) l x in
  (v = x ∨ v ∈ l) ∧ String.leb x v = true
  ∧ ∀ d, d ∈ l → String.leb d v = true.
Proof.
  revert x. induction l as [|y l IH]; intros x; simpl.
  - split_and!; [by left | apply string_leb_refl | by intros d ?%elem_of_nil].
  - destruct (IH (if String.ltb x y then y else x)) as (Hv & Hx & Hall).
    set (v := fold_left _ l _) in *.
    assert (String.leb x v = true ∧ String.leb y v = true) as [Hxv Hyv].
    { destruct (String.ltb x y) eqn:Hlt.
      - split; [|done]. eapply string_leb_trans; [|done]. by apply string_ltb_leb.
      - split; [done|]. eapply string_leb_trans; [|done].
        by apply string_ltb_false_leb. }
    split_and!; [|done|].
    + destruct Hv as [->|Hv]; [|right; by right].
      destruct (String.ltb x y); [right; left | by left].
    + intros d [->|Hd]%elem_of_cons; auto.
Qed.

Lemma py_max_spec (l : list string) (v : string) :
  py_max l = Some v → v ∈ l ∧ ∀ d, d ∈ l → String.leb d v = true.
Proof.
  destruct l as [|x l]; [done|]. intros [= <-].
  destruct (max_loop l x) as (Hv & Hx & Hall). split.
  - destruct Hv as [->|Hv]; [left | by right].
  - intros d [->|Hd]%elem_of_cons; auto.
Qed.

Lemma list_remove_None (x : string) (l : list string) :
  list_remove x l = None ↔ x ∉ l.
Proof.
  induction l as [|y l IH]; simpl.
  - split; [intros _; apply not_elem_of_nil | done].
  - rewrite not_elem_of_cons. destruct (decide (y = x)) as [->|Hne].
    + split; [done | by intros [? _]].
    + rewrite fmap_None, IH. split; [by intros ?; split | tauto].
Qed.

Lemma list_remove_Some (x : string) (l rest : list string) :
  list_remove x l = Some rest → l ≡ₚ x :: rest.
Proof.
  revert rest. induction l as [|y l IH]; intros rest; simpl; [done|].
  destruct (decide (y = x)) as [->|Hne]; [by intros [= ->]|].
  destruct (list_remove x l) as [rest'|]; [|done]. intros [= <-].
  rewrite (IH rest' eq_refl). apply Permutation_swap.
Qed.

Lemma dates_loop_spec (keys dates result : list string) :
  dates_loop keys dates = inr result →
  ∃ new,
    result = dates ++ new
    ∧ Forall2 (λ date i, split slash i !! 2%nat = Some date) new
        (List.filter (contains "intermediate-model/hyperparameters.json") keys).
Proof.
  revert dates. induction keys as [|i keys IH]; intros dates; simpl.
  - intros [= <-]. exists []. split; [by rewrite app_nil_r | constructor].
  - destruct (contains _ i); [|apply IH].
    destruct (split slash i !! 2%nat) as [date|] eqn:Hdate; [|done].
    intros (new & -> & Hnew)%IH. exists (date :: new). split.
    + by rewrite <- app_assoc.
    + by constructor.
Qed.

(** X12. [create_git_pr] needs the current version and another one among
    the listed hyperparameter files: when the current version is not
    among their dates, or is the only date, the call raises [ValueError]
    before anything is read or spawned. *)
Theorem create_git_pr_unlisted_version (ECOSYSTEM DEPLOYMENT_PREFIX : string)
    (list_bucket_objects : string → list string)
    (read_json_file : string → pr_exn + dict string float64)
    (json_dumps : dict string float64 → string)
    (run_script : list string → script_outcome)
    (model_version : string) (recall : float64) (dates : list string) :
  dates_loop (list_bucket_objects (ECOSYSTEM +:+ DEPLOYMENT_PREFIX)) []
  = inr dates →
  model_version ∉ dates ∨ dates = [model_version] →
  create_git_pr ECOSYSTEM DEPLOYMENT_PREFIX list_bucket_objects read_json_file
    json_dumps run_script model_version recall
  = (inl (Builtin ValueError), []).
Proof.
  intros Hdates Hcases. unfold create_git_pr, previous_version. rewrite Hdates.
  destruct Hcases as [Hnot| ->].
  - by rewrite (proj2 (list_remove_None model_version dates) Hnot).
  - simpl. by rewrite decide_True.
Qed.

Lemma create_git_pr_unlisted_version_witness :
  create_git_pr "pypi" "/deployment" three_versions (λ _, inr [])
    (λ _, ""%string) (λ _, Exited 0) "2019-03-01" (finite 1)
  = (inl (Builtin ValueError), []).
Proof.
  apply (create_git_pr_unlisted_version "pypi" "/deployment" three_versions
           (λ _, inr []) (λ _, ""%string) (λ _, Exited 0) "2019-03-01" (finite 1)
           ["2019-01-03"; "2019-02-07"; "2019-01-21"]%string).
  - reflexivity.
  - left. by apply (bool_decide_unpack _).
Defined.

(** X13. The previous version [create_git_pr] settles on: the dates are
    the third path components of the listed keys that contain
    "intermediate-model/hyperparameters.json"; the current version is
    taken out once; the version chosen is one of the remaining dates and
    no remaining date is greater in string order. *)
Theorem previous_version_greatest (ECOSYSTEM DEPLOYMENT_PREFIX : string)
    (list_bucket_objects : string → list string)
    (model_version chosen : string) :
  previous_version ECOSYSTEM DEPLOYMENT_PREFIX list_bucket_objects model_version
  = inr chosen →
  ∃ dates rest,
    Forall2 (λ date i, split slash i !! 2%nat = Some date) dates
      (List.filter (contains "intermediate-model/hyperparameters.json")
         (list_bucket_objects (ECOSYSTEM +:+ DEPLOYMENT_PREFIX)))
    ∧ dates ≡ₚ model_version :: rest
    ∧ chosen ∈ rest
    ∧ ∀ date, date ∈ rest → String.leb date chosen = true.
Proof.
  unfold previous_version. intros Hrun.
  destruct (dates_loop _ []) as [exc|dates] eqn:Hdates; [done|].
  destruct (list_remove model_version dates) as [rest|] eqn:Hrest; [|done].
  destruct (py_max rest) as [v|] eqn:Hmax; [|done].
  injection Hrun as ->.
  apply dates_loop_spec in Hdates as (new & -> & Hnew). simpl in *.
  apply py_max_spec in Hmax as [Hin Hall].
  exists new, rest. split_and!; [done| |done..].
  by apply list_remove_Some.
Qed.

Lemma previous_version_greatest_witness :
  ∃ dates rest,
    Forall2 (λ date i, split slash i !! 2%nat = Some date) dates
      (List.filter (contains "intermediate-model/hyperparameters.json")
         (three_versions ("pypi" +:+ "/deployment")))
    ∧ dates ≡ₚ "2019-02-07"%string :: rest
    ∧ "2019-01-21"%string ∈ rest
    ∧ ∀ date, date ∈ rest → String.leb date "2019-01-21" = true.
Proof.
  apply (previous_version_greatest "pypi" "/deployment" three_versions
           "2019-02-07" "2019-01-21").
  reflexivity.
Defined.

(** X14. Once the previous hyperparameters are read, [create_git_pr]
    runs the helper script exactly when the new recall is at least the
    previous one (0.55 when the file has none), so never for a recall
    that is [nan]; and when the script exits, the call returns normally
    whatever the return code. A wait that times out kills the process and
    raises [TimeoutExpired]. *)
Theorem create_git_pr_outcome (ECOSYSTEM DEPLOYMENT_PREFIX : string)
    (list_bucket_objects : string → list string)
    (read_json_file : string → pr_exn + dict string float64)
    (json_dumps : dict string float64 → string)
    (run_script : list string → script_outcome)
    (model_version previous : string) (recall : float64)
    (prev_hyperparams : dict string float64) :
  previous_version ECOSYSTEM DEPLOYMENT_PREFIX list_bucket_objects model_version
  = inr previous →
  read_json_file (hyperparameters_key DEPLOYMENT_PREFIX previous)
  = inr prev_hyperparams →
  let run := create_git_pr ECOSYSTEM DEPLOYMENT_PREFIX list_bucket_objects
               read_json_file json_dumps run_script model_version recall in
  let args := script_args model_version
                (escape_quotes (json_dumps prev_hyperparams)) in
  let prev_recall := default (finite float_0_55)
                             (dict_get prev_hyperparams "recall_at_30"%string) in
  (float_ge recall prev_recall = false → run = (inr (), []))
  ∧ (recall = nan → run = (inr (), []))
  ∧ (float_ge recall prev_recall = true →
     (∀ returncode, run_script args = Exited returncode →
                    run = (inr (), [Spawned args]))
     ∧ (run_script args = WaitTimeout →
        run = (inl TimeoutExpired, [Spawned args; Killed]))
     ∧ (Spawned args ∈ snd run
        ↔ (∃ returncode, run_script args = Exited returncode)
          ∨ run_script args = WaitTimeout)).
Proof.
  intros Hprev Hread run args prev_recall. subst run.
  unfold create_git_pr. rewrite Hprev, Hread. cbv zeta.
  fold prev_recall. fold args. split_and!.
  - by intros ->.
  - by intros ->.
  - intros ->. split_and!.
    + by intros returncode ->.
    + by intros ->.
    + destruct (run_script args) as [| | |rc]; simpl; split.
      * by intros ?%elem_of_nil.
      * by intros [[? ?]|?].
      * by intros ?%elem_of_nil.
      * by intros [[? ?]|?].
      * intros _. by right.
      * intros _. left.
      * intros _. left. by exists rc.
      * intros _. left.
Qed.

Lemma create_git_pr_outcome_witness :
  create_git_pr "pypi" "/deployment" three_versions
    (λ _, inr [("recall_at_30"%string, finite (1 # 2))])
    (λ _, "{}"%string) (λ _, Exited 1) "2019-02-07" (finite (6 # 10))
  = (inr (), [Spawned (script_args "2019-02-07" "{}")]).
Proof.
  destruct (create_git_pr_outcome "pypi" "/deployment" three_versions
              (λ _, inr [("recall_at_30"%string, finite (1 # 2))])
              (λ _, "{}"%string) (λ _, Exited 1) "2019-02-07" "2019-01-21"
              (finite (6 # 10)) [("recall_at_30"%string, finite (1 # 2))])
    as (_ & _ & Hrun); [reflexivity..|].
  destruct (Hrun eq_refl) as (Hexit & _). by apply (Hexit 1).
Defined.

Lemma dates_loop_index_error (keys dates : list string) (i : string) :
  i ∈ keys →
  contains "intermediate-model/hyperparameters.json" i = true →
  (length (split slash i) ≤ 2)%nat →
  dates_loop keys dates = inl IndexError.
Proof.
  intros Hin Hmarker Hshort. revert dates.
  induction keys as [|j keys IH]; intros dates; [by apply elem_of_nil in Hin|].
  simpl. apply elem_of_cons in Hin as [<-|Hin].
  - rewrite Hmarker. by rewrite (proj2 (lookup_ge_None (split slash i) 2) Hshort).
  - destruct (contains _ j); [|by apply IH].
    destruct (split slash j !! 2%nat); [by apply IH | done].
Qed.

(** X15. A listed hyperparameter key with fewer than two slashes, that is
    with no third path component, makes [create_git_pr] raise
    [IndexError], wherever it stands in the listing and whatever the
    other keys are. *)
Theorem create_git_pr_short_key (ECOSYSTEM DEPLOYMENT_PREFIX : string)
    (list_bucket_objects : string → list string)
    (read_json_file : string → pr_exn + dict string float64)
    (json_dumps : dict string float64 → string)
    (run_script : list string → script_outcome)
    (model_version : string) (recall : float64) (i : string) :
  i ∈ list_bucket_objects (ECOSYSTEM +:+ DEPLOYMENT_PREFIX) →
  contains "intermediate-model/hyperparameters.json" i = true →
  (length (split slash i) ≤ 2)%nat →
  create_git_pr ECOSYSTEM DEPLOYMENT_PREFIX list_bucket_objects read_json_file
    json_dumps run_script model_version recall
  = (inl IndexError, []).
Proof.
  intros Hin Hmarker Hshort. unfold create_git_pr, previous_version.
  by rewrite (dates_loop_index_error _ [] i).
Qed.

Lemma create_git_pr_short_key_witness :
  create_git_pr "" "" (λ _, ["a/b/c/intermediate-model/hyperparameters.json";
                             "intermediate-model/hyperparameters.json"]%string)
    (λ _, inr []) (λ _, ""%string) (λ _, Exited 0) "b" (finite 1)
  = (inl IndexError, []).
Proof.
  apply (create_git_pr_short_key "" ""
           (λ _, ["a/b/c/intermediate-model/hyperparameters.json";
                  "intermediate-model/hyperparameters.json"]%string)
           (λ _, inr []) (λ _, ""%string) (λ _, Exited 0) "b" (finite 1)
           "intermediate-model/hyperparameters.json").
  - right. left.
  - reflexivity.
  - vm_compute. lia.
Defined.

(** ** From raw data to the interaction table *)

